(** * Frogy: the discovery, accumulation and correlation pipeline of frogy.py

    A shallow embedding of the parts of [src/frogy.py] that decide the
    behaviour of the host accumulator ([unique_lines], [run_anew],
    [self.all_domains]), of root-domain extraction, of the resolution stage
    and of the final join ([build_results_table]).

    Python [str] values are modelled by [string]; a character is a code
    point below 256, so [lower] and [strip] are the Latin-1 restrictions of
    [str.lower] and [str.strip]. *)

From Stdlib Require Import Ascii.
From stdpp Require Import base option list gmap strings.

(** ** Python string primitives *)

Module PyStr.

Definition code (c : ascii) : N := N_of_ascii c.

(** [str.isspace] on one character: TAB..CR, FS..US, SPACE, NEL, NBSP. *)
Definition is_space (c : ascii) : bool :=
  let n := code c in
  ((9 <=? n) && (n <=? 13) || (28 <=? n) && (n <=? 32)
   || (n =? 133) || (n =? 160))%N.

(** [str.lower] on one character: A-Z and the upper-case letters of
    Latin-1 (all of 0xC0..0xDE except the multiplication sign 0xD7). *)
Definition lower_char (c : ascii) : ascii :=
  let n := code c in
  if ((65 <=? n) && (n <=? 90)
      || (192 <=? n) && (n <=? 222) && negb (n =? 215))%N
  then ascii_of_N (n + 32) else c.

Fixpoint lower (s : string) : string :=
  match s with
  | EmptyString => EmptyString
  | String c r => String (lower_char c) (lower r)
  end.

(** [s.lstrip(chars)] and [s.rstrip(chars)], the character set given as a
    predicate. *)
Fixpoint lstrip_of (p : ascii → bool) (s : string) : string :=
  match s with
  | EmptyString => EmptyString
  | String c r => if p c then lstrip_of p r else s
  end.

Fixpoint rstrip_of (p : ascii → bool) (s : string) : string :=
  match s with
  | EmptyString => EmptyString
  | String c r =>
      match rstrip_of p r with
      | EmptyString => if p c then EmptyString else String c EmptyString
      | r' => String c r'
      end
  end.

(** [s.strip()] *)
Definition strip (s : string) : string := rstrip_of is_space (lstrip_of is_space s).

Definition is_dot (c : ascii) : bool := bool_decide (c = "."%char).

(** [s.rstrip('.')]: removes every trailing dot. *)
Definition rstrip_dots (s : string) : string := rstrip_of is_dot s.

(** [c in s] for a one-character needle. *)
Fixpoint contains (c : ascii) (s : string) : bool :=
  match s with
  | EmptyString => false
  | String d r => bool_decide (d = c) || contains c r
  end.

(** [sep.join(lines)] *)
Fixpoint join (sep : string) (lines : list string) : string :=
  match lines with
  | [] => EmptyString
  | [l] => l
  | l :: rest => l +:+ sep +:+ join sep rest
  end.

(** The one-character string made of a line feed. *)
Definition LF : string := String "010"%char EmptyString.

(** [s.split(sep)] for a one-character separator: always at least one
    field. *)
Fixpoint split (sep : ascii) (s : string) : list string :=
  match s with
  | EmptyString => [EmptyString]
  | String c r =>
      if bool_decide (c = sep) then EmptyString :: split sep r
      else match split sep r with
           | f :: fs => String c f :: fs
           | [] => [String c EmptyString]
           end
  end.

Definition nonempty (s : string) : bool :=
  match s with EmptyString => false | _ => true end.

(** [all(p(c) for c in s)] *)
Fixpoint all_of (p : ascii → bool) (s : string) : bool :=
  match s with
  | EmptyString => true
  | String c r => p c && all_of p r
  end.

(** The first character of [s], if any, is outside [p]. *)
Definition head_outside (p : ascii → bool) (s : string) : Prop :=
  match s with
  | EmptyString => True
  | String c _ => p c = false
  end.

End PyStr.

Import PyStr.

(** ** Line de-duplication: [unique_lines] *)

(** The key under which [unique_lines] and [run_anew] compare two lines:
    [line.lower().strip()]. *)
Definition line_key (line : string) : string := strip (lower line).

(** One iteration of the loop of [unique_lines] on the pair
    ([seen], [result]). *)
Definition unique_lines_step (st : gset string * list string) (line : string)
  : gset string * list string :=
  let line_lower := line_key line in
  if nonempty line_lower && bool_decide (line_lower ∉ st.1)
  then ({[line_lower]} ∪ st.1, st.2 ++ [line])
  else st.

Definition unique_lines (lines : list string) : list string :=
  (foldl unique_lines_step (∅, []) lines).2.

(** The same selection in the words of the specification: the element at
    position [i] is retained when its key is not empty and differs from the
    key of every earlier element. *)
Definition first_occurrence (lines : list string) (i : nat) (line : string) : Prop :=
  line_key line ≠ EmptyString ∧ line_key line ∉ (line_key <$> take i lines).

Global Instance first_occurrence_dec lines i line : Decision (first_occurrence lines i line).
Proof. unfold first_occurrence. apply _. Defined.

Definition first_occurrences (lines : list string) : list string :=
  snd <$> filter (λ p, first_occurrence lines p.1 p.2) (imap pair lines).

(** The loop of [unique_lines] with its accumulators unfolded: what is
    appended to [result] when the loop starts with the set [seen]. *)
Fixpoint unique_from (seen : gset string) (lines : list string) : list string :=
  match lines with
  | [] => []
  | line :: rest =>
      if nonempty (line_key line) && bool_decide (line_key line ∉ seen)
      then line :: unique_from ({[line_key line]} ∪ seen) rest
      else unique_from seen rest
  end.

(** [seen] holds exactly the non-empty keys of the lines already read. *)
Definition seen_of (seen : gset string) (pre : list string) : Prop :=
  ∀ k, k ∈ seen ↔ k ≠ EmptyString ∧ k ∈ (line_key <$> pre).

(** ** Artifacts *)

(** The [host] field of a dnsx record: a string or a list of strings. *)
Inductive host_field :=
| HostStr (h : string)
| HostList (hs : list string).

(** One JSON object of [resolved.json], fields as dnsx writes them: every
    field optional, the record fields lists of strings. *)
Record dns_line := {
  dl_host : option host_field;
  dl_a : option (list string);
  dl_aaaa : option (list string);
  dl_cname : option (list string);
  dl_mx : option (list string);
  dl_txt : option (list string);
  dl_ns : option (list string);
  dl_soa : option (list string);
  dl_caa : option (list string);
}.

(** A non-blank line of [resolved.json]: [json.loads] raises
    [JSONDecodeError], or yields an object. *)
Inductive json_line :=
| Unparseable
| Parsed (d : dns_line).

(** A value of [dns_data]. *)
Record dns_record := {
  dns_a : list string;
  dns_aaaa : list string;
  dns_cname : list string;
  dns_mx : list string;
  dns_txt : list string;
}.

(** A row of [web_intelligence.csv] as [csv.DictReader] yields it, reduced
    to the columns the join reads ([row.get(col, '')]). *)
Record csv_row := {
  csv_url : string;
  csv_host : string;
  csv_status_code : string;
  csv_title : string;
}.

(** A value of [web_data] holds such entries. *)
Record web_entry := {
  w_url : string;
  w_status : string;
  w_title : string;
}.

(** ** External tools *)

(** A command-line filter as the pipeline sees it. [None]: [check_tool] does
    not find it. [Some run]: it is installed and [run input] is what one
    invocation does with the text on its standard input, [None] when
    [Popen] or [communicate] raises (missing permissions, the 30 s timeout),
    [Some out] for the text of its standard output. *)
Definition filter_tool : Type := option (string → option string).

(** dnsx and httpx write a file: [None] when the tool is not installed; when
    it is, [run input_lines] is the file found afterwards at the path given
    with [-o] ([None]: no file), whatever the exit code or the timeout. *)
Definition file_tool (A : Type) : Type := option (list string → option (list A)).

Record tools := {
  anew : filter_tool;
  unfurl : filter_tool;
  dnsx : file_tool json_line;
  httpx : file_tool csv_row;
}.

(** [[line.strip() for line in stdout.split('\n') if line.strip()]] *)
Definition stdout_lines (out : string) : list string :=
  filter (λ l, nonempty l) (strip <$> split "010"%char out).

Definition run_unfurl_domains (t : tools) (input_lines : list string) : list string :=
  match unfurl t with
  | None => input_lines
  | Some run =>
      match run (join LF input_lines) with
      | Some out => stdout_lines out
      | None => input_lines
      end
  end.

Definition run_anew (t : tools) (new_lines existing_lines : list string) : list string :=
  match anew t with
  | None =>
      let existing_set : gset string := list_to_set (line_key <$> existing_lines) in
      filter (λ line, line_key line ∉ existing_set) new_lines
  | Some run =>
      match run (join LF (existing_lines ++ new_lines)) with
      | Some out => stdout_lines out
      | None => unique_lines (existing_lines ++ new_lines)
      end
  end.

(** ** The accumulator [self.all_domains] *)

(** What every enumeration stage does with the candidates it read
    ([amass_enumeration], [wayback_enumeration], [certificate_enumeration],
    [findomain_enumeration], [subfinder_enumeration], [gather_root_domains]):
      [domains = run_unfurl_domains(domains)]
      [domains = run_anew(domains, self.all_domains)]
      [self.all_domains.extend(domains)]
    The result is the delta [domains] and the new value of
    [self.all_domains]. *)
Definition merge_new (t : tools) (candidates all_domains : list string)
  : list string * list string :=
  let domains := run_unfurl_domains t candidates in
  let domains := run_anew t domains all_domains in
  (domains, all_domains ++ domains).

(** A run of merges, each on the accumulator the previous one left. *)
Definition merge_all (t : tools) (all_domains : list string) (inputs : list (list string))
  : list string :=
  foldl (λ acc candidates, (merge_new t candidates acc).2) all_domains inputs.

(** The snapshot [resolve_domains] takes of the accumulator before it is
    written as the master list:
      [unique_lines(self.all_domains + [f'www.{self.domain}', self.domain])] *)
Definition master_snapshot (domain : string) (all_domains : list string) : list string :=
  unique_lines (all_domains ++ ["www." +:+ domain; domain]).

(** No external tool installed: the in-process path of every helper. *)
Definition no_tools : tools :=
  {| anew := None; unfurl := None; dnsx := None; httpx := None |}.

(** [anew] is installed and its invocation raises. *)
Definition anew_raises : tools :=
  {| anew := Some (λ _, None); unfurl := None; dnsx := None; httpx := None |}.

(** An [anew] that prints every distinct line of its standard input once,
    in order of first appearance. *)
Definition anew_prints_distinct : tools :=
  {| anew := Some (λ input, Some (join LF (remove_dups (split "010"%char input))));
     unfurl := None; dnsx := None; httpx := None |}.

(** ** Python library behaviour the source relies on *)

(** [list(set(xs))]: every element of [xs] once, in the iteration order of
    the set, which the language leaves to the hash of the elements; and
    [urllib.parse.urlparse(url).hostname or '']. *)
Record pylib := {
  set_list : list string → list string;
  set_list_NoDup : ∀ xs, NoDup (set_list xs);
  set_list_elem : ∀ xs x, x ∈ set_list xs ↔ x ∈ xs;
  url_hostname : string → string;
}.

(** An instance: sets that iterate in first-insertion order, host names
    never recovered from a URL. *)
Definition insertion_order : pylib := {|
  set_list := remove_dups;
  set_list_NoDup := NoDup_remove_dups;
  set_list_elem := λ xs x, elem_of_remove_dups xs x;
  url_hostname := λ _, EmptyString;
|}.

(** A text file is the list of the lines written to it (no line holds a
    line terminator); [None] is a file that does not exist. *)
Definition text_file : Type := option (list string).

(** [read_file_lines]: stripped non-blank lines, [[]] for a missing file. *)
Definition read_file_lines (f : text_file) : list string :=
  match f with
  | Some lines => filter (λ l, nonempty l) (strip <$> lines)
  | None => []
  end.

(** [Path.touch()]: creates the file empty, leaves an existing one alone. *)
Definition touch (f : text_file) : text_file :=
  match f with
  | Some lines => Some lines
  | None => Some []
  end.

(** The files a run works on. [live_assets] is [./live.assets] of the
    working directory; the others live under [output/<cdir>/], which
    [setup_directories] removes and recreates when the run starts.
    [source_files] are the per-source files at the paths
    [build_results_table] opens, under the names it gives the sources, in
    the order of its [source_files] dictionary. *)
Record files := {
  master_file : text_file;
  resolved_json : option (list json_line);
  live_assets : text_file;
  web_intelligence_csv : option (list csv_row);
  source_files : list (string * text_file);
}.

(** [setup_directories]: the output directory is empty afterwards. *)
Definition setup_directories (fs : files) : files :=
  {| master_file := None; resolved_json := None; live_assets := live_assets fs;
     web_intelligence_csv := None; source_files := [] |}.

(** ** Resolution stage *)

(** The value of the [host] field as a list of names. *)
Definition hosts_of (d : dns_line) : list string :=
  match dl_host d with
  | Some (HostStr h) => [h]
  | Some (HostList hs) => hs
  | None => []
  end.

(** The loop of [resolve_domains] over [resolved.json] followed by
    [unique_lines]: the lines written to [live.assets]. *)
Definition live_hosts (lines : list json_line) : list string :=
  unique_lines
    (lines ≫= λ l, match l with Unparseable => [] | Parsed d => hosts_of d end).

Definition resolve_domains (t : tools) (domain : string) (all_domains : list string)
    (fs : files) : files :=
  let master_domains :=
    run_unfurl_domains t (unique_lines (all_domains ++ ["www." +:+ domain; domain])) in
  match dnsx t with
  | None =>
      {| master_file := Some master_domains;
         resolved_json := resolved_json fs;
         live_assets := touch (live_assets fs);
         web_intelligence_csv := web_intelligence_csv fs;
         source_files := source_files fs |}
  | Some run =>
      let resolved :=
        match run master_domains with
        | Some out => Some out
        | None => resolved_json fs
        end in
      {| master_file := Some master_domains;
         resolved_json := resolved;
         live_assets :=
           match resolved with
           | Some lines => Some (live_hosts lines)
           | None => live_assets fs
           end;
         web_intelligence_csv := web_intelligence_csv fs;
         source_files := source_files fs |}
  end.

(** ** Web probe stage *)

Definition web_discovery (t : tools) (fs : files) : files :=
  match live_assets fs with
  | None => fs
  | Some live_lines =>
      match read_file_lines (live_assets fs) with
      | [] => fs
      | _ :: _ =>
          match httpx t with
          | None => fs
          | Some run =>
              {| master_file := master_file fs;
                 resolved_json := resolved_json fs;
                 live_assets := None;
                 web_intelligence_csv :=
                   match run live_lines with
                   | Some rows => Some rows
                   | None => web_intelligence_csv fs
                   end;
                 source_files := source_files fs |}
          end
      end
  end.

(** ** Correlator: [build_results_table] *)

(** [domain.lower().strip().rstrip('.')]: the key of every lookup of the
    join. *)
Definition domain_normalized (domain : string) : string :=
  rstrip_dots (strip (lower domain)).

(** The value stored for a record: [data.get(field, [])] for each of the
    five fields kept. *)
Definition dns_record_of (d : dns_line) : dns_record :=
  {| dns_a := default [] (dl_a d);
     dns_aaaa := default [] (dl_aaaa d);
     dns_cname := default [] (dl_cname d);
     dns_mx := default [] (dl_mx d);
     dns_txt := default [] (dl_txt d) |}.

(** Loading [dns_data]. A line that does not parse is skipped; a record
    without a [host], or with an empty one, stores nothing; a record whose
    [host] is a non-empty list cannot be a dictionary key, and the
    [TypeError] leaves the loop through the outer [except Exception: pass]
    with what was loaded so far. *)
Fixpoint load_dns (lines : list json_line) (dns_data : gmap string dns_record)
  : gmap string dns_record :=
  match lines with
  | [] => dns_data
  | Unparseable :: rest => load_dns rest dns_data
  | Parsed d :: rest =>
      match dl_host d with
      | None => load_dns rest dns_data
      | Some (HostStr h) =>
          if nonempty h then load_dns rest (<[h := dns_record_of d]> dns_data)
          else load_dns rest dns_data
      | Some (HostList []) => load_dns rest dns_data
      | Some (HostList (_ :: _)) => dns_data
      end
  end.

(** Loading [web_data] from the rows of [csv.DictReader] (the reader does
    not fail on them, so the line-splitting fallback is not entered). *)
Definition load_web_row (py : pylib) (web_data : gmap string (list web_entry)) (row : csv_row)
  : gmap string (list web_entry) :=
  let url := strip (csv_url row) in
  let host := strip (csv_host row) in
  let status := strip (csv_status_code row) in
  let title := strip (csv_title row) in
  let host := if negb (nonempty host) && nonempty url then url_hostname py url else host in
  if nonempty host
  then <[host := default [] (web_data !! host)
                 ++ [{| w_url := url; w_status := status; w_title := title |}]]> web_data
  else web_data.

Definition load_web (py : pylib) (rows : list csv_row) : gmap string (list web_entry) :=
  foldl (load_web_row py) ∅ rows.

(** Loading [sources_map]: for every source file that exists, in the order
    of the dictionary, every line adds the name of the source to the list of
    its normalized domain, once. *)
Definition add_source (source_name : string) (sources_map : gmap string (list string))
    (domain : string) : gmap string (list string) :=
  let dn := domain_normalized domain in
  if nonempty dn then
    let known := default [] (sources_map !! dn) in
    if bool_decide (source_name ∈ known) then <[dn := known]> sources_map
    else <[dn := known ++ [source_name]]> sources_map
  else sources_map.

Definition load_sources (source_files : list (string * text_file))
  : gmap string (list string) :=
  foldl (λ sources_map sf,
           match sf.2 with
           | Some _ => foldl (add_source sf.1) sources_map (read_file_lines sf.2)
           | None => sources_map
           end) ∅ source_files.

(** The status strings of the report, each a symbol followed by [Web],
    [Live] or [No IP]. *)
Inductive status_tag := Web | Live | NoIP.

Global Instance status_tag_eq_dec : EqDecision status_tag.
Proof. solve_decision. Defined.

(** An entry of [results]. *)
Record asset_record := {
  domain : string;
  ips : list string;
  web_urls : list string;
  sources : string;
  status : status_tag;
}.

Definition is_nil {A} (l : list A) : bool :=
  match l with [] => true | _ => false end.

(** The body of the loop that builds [results]. *)
Definition asset_row (py : pylib)
    (dns_data : gmap string dns_record)
    (web_data : gmap string (list web_entry))
    (sources_map : gmap string (list string))
    (domain : string) : asset_record :=
  let dn := domain_normalized domain in
  let ips :=
    match dns_data !! dn with
    | Some r => dns_a r ++ dns_aaaa r
    | None =>
        match dns_data !! rstrip_dots dn with
        | Some r => dns_a r ++ dns_aaaa r
        | None => []
        end
    end in
  let ips := take 3 (set_list py ips) in
  let web_urls :=
    match web_data !! dn with
    | Some ws => w_url <$> take 2 ws
    | None =>
        match web_data !! rstrip_dots dn with
        | Some ws => w_url <$> take 2 ws
        | None => []
        end
    end in
  let sources := default [] (sources_map !! dn) in
  let sources :=
    if is_nil sources then default [] (sources_map !! rstrip_dots dn) else sources in
  let source_str := if is_nil sources then "unknown" else join ", " sources in
  let status := if is_nil ips then NoIP else Live in
  let status := if is_nil web_urls then status else Web in
  {| domain := domain; ips := ips; web_urls := web_urls;
     sources := source_str; status := status |}.

(** Lines 940-985 on the three maps. *)
Definition build_results (py : pylib)
    (all_domains : list string)
    (dns_data : gmap string dns_record)
    (web_data : gmap string (list web_entry))
    (sources_map : gmap string (list string)) : list asset_record :=
  asset_row py dns_data web_data sources_map <$> all_domains.

(** [build_results_table]: reads the files, writes none. *)
Definition build_results_table (py : pylib) (fs : files) : list asset_record :=
  match master_file fs with
  | None => []
  | Some _ =>
      let all_domains := read_file_lines (master_file fs) in
      let dns_data :=
        match resolved_json fs with
        | Some lines => load_dns lines ∅
        | None => ∅
        end in
      let web_data :=
        match web_intelligence_csv fs with
        | Some rows => load_web py rows
        | None => ∅
        end in
      let sources_map := load_sources (source_files fs) in
      build_results py all_domains dns_data web_data sources_map
  end.

(** ** Root domains: [extract_root_domains] *)

(** A backtracking matcher for the fragment of Python's [re] the root
    pattern is written in, on the characters of the subject. *)
Module Regex.

Inductive re : Type :=
| Chr (p : ascii → bool)                    (* one character of a class *)
| Eol                                       (* [$] under [re.MULTILINE] *)
| Cat (r1 r2 : re)                          (* [r1 r2] *)
| Rep (r : re) (lo : nat) (hi : option nat) (* greedy [r{lo,hi}], [None]: no upper bound *).

Definition is_newline (c : ascii) : bool := bool_decide (c = "010"%char).

(** [$] under [re.MULTILINE]: at the end of the subject or before a line
    feed. *)
Definition at_eol (s : list ascii) : bool :=
  match s with
  | [] => true
  | c :: _ => is_newline c
  end.

(** Greedy repetition: one more iteration first, the exit when that
    fails, at least [lo] and at most [budget] iterations. *)
Fixpoint rep {R} (step : list ascii → (list ascii → option R) → option R)
    (lo budget : nat) (s : list ascii) (k : list ascii → option R) : option R :=
  match budget with
  | 0 => match lo with 0 => k s | S _ => None end
  | S budget' =>
      match step s (λ s', rep step (pred lo) budget' s' k) with
      | Some x => Some x
      | None => match lo with 0 => k s | S _ => None end
      end
  end.

(** [m r s k]: the first way, in the order the backtracking engine tries
    them, to match [r] at the head of [s] such that the continuation [k]
    accepts the rest. An unbounded repetition iterates at most once per
    remaining character. *)
Fixpoint m {R} (r : re) (s : list ascii) (k : list ascii → option R) : option R :=
  match r with
  | Chr p =>
      match s with
      | c :: s' => if p c then k s' else None
      | [] => None
      end
  | Eol => if at_eol s then k s else None
  | Cat r1 r2 => m r1 s (λ s', m r2 s' k)
  | Rep r' lo hi => rep (m r') lo (default (length s) hi) s k
  end.

(** [pattern.match] at the head of [s]: the rest of the subject after the
    match. *)
Definition match_at (r : re) (s : list ascii) : option (list ascii) := m r s Some.

(** [re.finditer]: leftmost matches, each search resuming where the
    previous match ended; after an empty match the search resumes one
    character further. *)
Fixpoint finditer_from (fuel : nat) (r : re) (s : list ascii) : list (list ascii) :=
  match fuel with
  | 0 => []
  | S fuel' =>
      match match_at r s with
      | Some rest =>
          let matched := take (length s - length rest) s in
          match matched, s with
          | [], [] => [[]]
          | [], _ :: s' => [] :: finditer_from fuel' r s'
          | _, _ => matched :: finditer_from fuel' r rest
          end
      | None =>
          match s with
          | [] => []
          | _ :: s' => finditer_from fuel' r s'
          end
      end
  end.

Definition finditer (r : re) (s : string) : list string :=
  String.string_of_list_ascii
    <$> finditer_from (S (String.length s)) r (String.list_ascii_of_string s).

(** What a match consumes, read off the pattern. *)
Inductive matches : re → list ascii → list ascii → Prop :=
| matches_chr p c s : p c = true → matches (Chr p) (c :: s) s
| matches_eol s : at_eol s = true → matches Eol s s
| matches_cat r1 r2 s s1 s2 :
    matches r1 s s1 → matches r2 s1 s2 → matches (Cat r1 r2) s s2
| matches_rep r lo hi n s s' :
    lo ≤ n → from_option (λ h, n ≤ h) True hi →
    iterates r n s s' → matches (Rep r lo hi) s s'
with iterates : re → nat → list ascii → list ascii → Prop :=
| iterates_0 r s : iterates r 0 s s
| iterates_S r n s s1 s2 :
    matches r s s1 → iterates r n s1 s2 → iterates r (S n) s s2.

End Regex.

Import Regex.

Definition not_dot (c : ascii) : bool := negb (is_dot c).

(** [.]: any character except a line feed. *)
Definition any_char (c : ascii) : bool := negb (is_newline c).

(** The pattern of [extract_root_domains],
    [[^.]*.[^.]{2,3}(?:.[^.]{2,3})?$]. *)
Definition root_regex : re :=
  Cat (Rep (Chr not_dot) 0 None)
  (Cat (Chr any_char)
  (Cat (Rep (Chr not_dot) 2 (Some 3))
  (Cat (Rep (Cat (Chr any_char) (Rep (Chr not_dot) 2 (Some 3))) 0 (Some 1))
       Eol))).

(** The roots one domain contributes, in the order the loop adds them to
    the set. *)
Definition roots_of (domain : string) : list string :=
  let domain := lower (strip domain) in
  if negb (nonempty domain) || contains " "%char domain || contains "@"%char domain
  then []
  else
    filter (λ root_domain, nonempty root_domain && contains "."%char root_domain)
           ((λ mt, strip (lower mt)) <$> finditer root_regex domain).

Definition extract_root_domains (py : pylib) (domains : list string) : list string :=
  set_list py (domains ≫= roots_of).

(** The root list of [gather_root_domains], written to [rootdomain.txtls]:
    [unique_lines(self.extract_root_domains(self.all_domains))]. *)
Definition root_domain_list (py : pylib) (all_domains : list string) : list string :=
  unique_lines (extract_root_domains py all_domains).

(** The addresses and the endpoints the maps hold under the join key of a
    domain. *)
Definition recorded_ips (dns_data : gmap string dns_record) (domain : string) : list string :=
  match dns_data !! domain_normalized domain with
  | Some r => dns_a r ++ dns_aaaa r
  | None => []
  end.

Definition recorded_web (web_data : gmap string (list web_entry)) (domain : string)
  : list web_entry :=
  default [] (web_data !! domain_normalized domain).

(** ** Worked examples of the specification *)

Definition dns_line_of (h : string) (addrs : list string) : dns_line :=
  {| dl_host := Some (HostStr h); dl_a := Some addrs; dl_aaaa := None;
     dl_cname := None; dl_mx := None; dl_txt := None;
     dl_ns := None; dl_soa := None; dl_caa := None |}.

(** A record that carries a CNAME and nothing else. *)
Definition cname_only_line (h target : string) : dns_line :=
  {| dl_host := Some (HostStr h); dl_a := None; dl_aaaa := None;
     dl_cname := Some [target]; dl_mx := None; dl_txt := None;
     dl_ns := None; dl_soa := None; dl_caa := None |}.

(** The maps of the join example: one host, one address, one endpoint, one
    source. *)
Definition join_dns : gmap string dns_record :=
  {[ "x.example.com" := dns_record_of (dns_line_of "x.example.com" ["1.2.3.4"]) ]}.

Definition join_web : gmap string (list web_entry) :=
  {[ "x.example.com" :=
       [{| w_url := "http://x.example.com"; w_status := EmptyString; w_title := EmptyString |}] ]}.

Definition join_sources : gmap string (list string) :=
  {[ "x.example.com" := ["passive-enumeration"] ]}.

(** The files of a host resolved to the addresses [addrs]. *)
Definition resolved_files (h : string) (addrs : list string) : files :=
  {| master_file := Some [h];
     resolved_json := Some [Parsed (dns_line_of h addrs)];
     live_assets := None;
     web_intelligence_csv := None;
     source_files := [] |}.

(** Only dnsx installed, leaving [lines] as [resolved.json]. *)
Definition dnsx_writes (lines : list json_line) : tools :=
  {| anew := None; unfurl := None; dnsx := Some (λ _, Some lines); httpx := None |}.

(** The files of an empty working directory. *)
Definition no_files : files :=
  {| master_file := None; resolved_json := None; live_assets := None;
     web_intelligence_csv := None; source_files := [] |}.

(** ** The tail of [run] *)

(** The files [resolve_domains] starts on: [setup_directories] emptied the
    output directory, the enumeration stages wrote per-source files only,
    and [./live.assets] is whatever the working directory held before the
    run. *)
Definition after_enumeration (prior : files) (sources : list (string * text_file)) : files :=
  {| master_file := master_file (setup_directories prior);
     resolved_json := resolved_json (setup_directories prior);
     live_assets := live_assets (setup_directories prior);
     web_intelligence_csv := web_intelligence_csv (setup_directories prior);
     source_files := sources |}.

(** [resolve_domains], [web_discovery], then the table of
    [generate_summary]. *)
Definition report_run (py : pylib) (t : tools) (domain : string)
    (all_domains : list string) (fs : files) : list asset_record :=
  build_results_table py (web_discovery t (resolve_domains t domain all_domains fs)).

(** dnsx is not installed; httpx is, and reports one endpoint. *)
Definition httpx_only : tools :=
  {| anew := None; unfurl := None; dnsx := None;
     httpx := Some (λ _, Some [ {| csv_url := "http://x.example.com";
                                   csv_host := "x.example.com";
                                   csv_status_code := "200";
                                   csv_title := EmptyString |} ]) |}.

(** A working directory in which an earlier run left its [live.assets]. *)
Definition stale_live_assets : files :=
  {| master_file := None; resolved_json := None;
     live_assets := Some ["x.example.com"];
     web_intelligence_csv := None; source_files := [] |}.

(** A host under the root [root]: stripped and lowercased it is some prefix
    free of line feeds, a dot, and the root. *)
Definition under_root (root host : string) : Prop :=
  ∃ q, lower (strip host) = q +:+ "." +:+ root ∧ contains "010"%char q = false.

(** The three hosts of the root-extraction example. *)
Definition example_hosts : list string :=
  ["a.b.example.com"; "example.com"; "www.example.com"].

(** The characters of [".example.com"]. *)
Definition dot_example_com : list ascii := String.list_ascii_of_string ".example.com".

(** ** Further helpers of the module *)




(** A tool environment in which unfurl is installed and prints its input
    back. *)
Definition unfurl_echoes : tools :=
  {| anew := None; unfurl := Some (λ input, Some input); dnsx := None; httpx := None |}.

(** The lines of [resolved.json] whose [host] is a string, missing or an
    empty list: none makes [load_dns] leave its loop. *)
Definition string_host (l : json_line) : Prop :=
  match l with
  | Unparseable => True
  | Parsed d =>
      match dl_host d with
      | Some (HostList (_ :: _)) => False
      | _ => True
      end
  end.



(** The [*.txtls] files of a run by name: those of the output directory
    [output/<cdir>/], where the stages write them, and those of its
    [raw_output/] subdirectory. *)
Record txtls_dirs := {
  out_txtls : gmap string (list string);
  raw_txtls : gmap string (list string);
}.

(** The [source_files] dictionary of [build_results_table], in its order:
    five files looked up in [raw_output/], then [chaos.txtls] of the output
    directory when it exists. *)
Definition report_source_files (d : txtls_dirs) : list (string * text_file) :=
  [ ("amass", raw_txtls d !! "amass.txtls");
    ("findomain", raw_txtls d !! "findomain.txtls");
    ("wayback", raw_txtls d !! "wayback.txtls");
    ("certificate", raw_txtls d !! "whois.txtls");
    ("subfinder", raw_txtls d !! "subfinder2.txtls") ]
  ++ match out_txtls d !! "chaos.txtls" with
     | Some lines => [("chaos", Some lines)]
     | None => []
     end.

(** [cleanup]: every [*.txtls] file of the output directory except
    [rootdomain.txtls] is moved to [raw_output/], over a file of the same
    name there. *)
Definition cleanup (d : txtls_dirs) : txtls_dirs :=
  {| out_txtls := filter (λ kv, kv.1 = "rootdomain.txtls") (out_txtls d);
     raw_txtls := filter (λ kv, kv.1 ≠ "rootdomain.txtls") (out_txtls d) ∪ raw_txtls d |}.

(** The body of the loop of [load_sources] over the source files. *)
Definition load_sources_step (sources_map : gmap string (list string))
    (sf : string * text_file) : gmap string (list string) :=
  match sf.2 with
  | Some _ => foldl (add_source sf.1) sources_map (read_file_lines sf.2)
  | None => sources_map
  end.

(** What [sources_map] keeps: no list twice the same name, no empty list. *)
Definition sources_ok (sm : gmap string (list string)) : Prop :=
  ∀ k l, sm !! k = Some l → NoDup l ∧ l ≠ [].

(** The output directory of a run in which the CHAOS data set and amass both
    reported a host; [raw_output/] holds no file yet. *)
Definition dirs_before_cleanup : txtls_dirs :=
  {| out_txtls := {[ "chaos.txtls" := ["a.example.com"];
                     "amass.txtls" := ["a.example.com"; "b.example.com"];
                     "rootdomain.txtls" := ["example.com"] ]};
     raw_txtls := ∅ |}.

(** [s.count('.')] *)
Fixpoint dots (s : string) : nat :=
  match s with
  | EmptyString => 0
  | String c r => (if is_dot c then 1 else 0) + dots r
  end.

(** dnsx is installed and leaves [lines] as [resolved.json]; httpx is not
    installed. *)
Definition dnsx_without_httpx (lines : list json_line) : tools :=
  {| anew := None; unfurl := None; dnsx := Some (λ _, Some lines); httpx := None |}.

(** ** The archive crawl *)

(** What the loop of [wayback_enumeration] takes from one line of the
    response: [line.split('/')[2].split(':')[0]] when the line is not blank,
    has three fields and that host is not empty and holds a dot. *)
Definition wayback_host (line : string) : option string :=
  if nonempty (strip line) then
    match split "/"%char line with
    | _ :: _ :: authority :: _ =>
        let domain := hd EmptyString (split ":"%char authority) in
        if nonempty domain && contains "."%char domain then Some domain else None
    | _ => None
    end
  else None.

(** The hosts [wayback_enumeration] writes to [wayback.txtls]. *)
Definition wayback_hosts (data : string) : list string :=
  unique_lines (omap wayback_host (split "010"%char data)).

(** The rest of a URL after its host: nothing, a port, or a path. *)
Definition url_tail (tail : string) : Prop :=
  match tail with
  | EmptyString => True
  | String c _ => c = ":"%char ∨ c = "/"%char
  end.

(** ** Domains in free text: [extract_domains_from_text] *)

Definition in_range (lo hi : N) (c : ascii) : bool := ((lo <=? code c) && (code c <=? hi))%N.

(** [[a-zA-Z]], [[a-zA-Z0-9]] and [[a-zA-Z0-9-]] *)
Definition alpha (c : ascii) : bool := in_range 97 122 c || in_range 65 90 c.
Definition alnum (c : ascii) : bool := alpha c || in_range 48 57 c.
Definition alnum_dash (c : ascii) : bool := alnum c || bool_decide (c = "-"%char).

(** The pattern
    [(?:[a-zA-Z0-9](?:[a-zA-Z0-9-]{0,61}[a-zA-Z0-9])?\.)+[a-zA-Z]{2,}]. *)
Definition domain_pattern : re :=
  Cat (Rep (Cat (Chr alnum)
           (Cat (Rep (Cat (Rep (Chr alnum_dash) 0 (Some 61)) (Chr alnum)) 0 (Some 1))
                (Chr is_dot)))
           1 None)
      (Rep (Chr alpha) 2 None).

(** [s.startswith(prefix)] and [needle in s] *)
Fixpoint startswith (prefix s : string) : bool :=
  match prefix, s with
  | EmptyString, _ => true
  | String c p, String d r => bool_decide (c = d) && startswith p r
  | String _ _, EmptyString => false
  end.

Fixpoint in_str (needle s : string) : bool :=
  startswith needle s ||
  match s with
  | EmptyString => false
  | String _ r => in_str needle r
  end.

Definition extract_domains_from_text (text : string) (domain_filter : option string)
  : list string :=
  let domains := finditer domain_pattern text in
  let domains :=
    match domain_filter with
    | Some f =>
        if nonempty f then filter (λ d, in_str (lower f) (lower d)) domains else domains
    | None => domains
    end in
  let filtered :=
    filter (λ domain,
              nonempty domain && negb (startswith "*" domain)
              && negb (contains "@"%char domain)
              && negb (contains " "%char domain) && contains "."%char domain)
           ((λ domain, strip (lower domain)) <$> domains) in
  unique_lines filtered.

(** The characters of an extracted domain: lower-case letters, digits, the
    hyphen and the dot. *)
Definition domain_char (c : ascii) : bool :=
  in_range 97 122 c || in_range 48 57 c || bool_decide (c = "-"%char) || is_dot c.

(** Every character class of a pattern lies within [P]. *)
Fixpoint re_chars (P : ascii → bool) (r : re) : Prop :=
  match r with
  | Chr p => ∀ c, p c = true → P c = true
  | Eol => True
  | Cat r1 r2 => re_chars P r1 ∧ re_chars P r2
  | Rep r' _ _ => re_chars P r'
  end.

(** [[a-zA-Z0-9.-]] *)
Definition host_char (c : ascii) : bool := alnum_dash c || is_dot c.

(** ** The summary and the site list *)




(** The loop of [web_discovery] over the lines of [web_intelligence.csv],
    followed by [unique_lines]: the URLs written to [site_list.txtls]. *)
Definition site_of_line (line : string) : option string :=
  if nonempty (strip line) && negb (in_str "url" (lower line)) then
    match split ","%char line with
    | _ :: _ :: _ :: _ :: _ :: _ :: _ :: _ :: field :: _ =>
        let url := strip field in
        if nonempty url && startswith "http" url then Some url else None
    | _ => None
    end
  else None.

Definition site_list (csv_lines : list string) : list string :=
  unique_lines (omap site_of_line csv_lines).

(** * Properties *)

(** ** [unique_lines] *)

Lemma nonempty_true s : nonempty s = true ↔ s ≠ EmptyString.
Proof. destruct s; simpl; split; intros; congruence. Qed.

Lemma foldl_unique_lines_step lines seen result :
  (foldl unique_lines_step (seen, result) lines).2 = result ++ unique_from seen lines.
Proof.
  revert seen result. induction lines as [|line rest IH]; intros seen result; simpl.
  - by rewrite app_nil_r.
  - unfold unique_lines_step at 2. simpl.
    destruct (nonempty (line_key line) && bool_decide (line_key line ∉ seen)); simpl.
    + rewrite IH. by rewrite <- app_assoc.
    + apply IH.
Qed.

Lemma unique_lines_unique_from lines : unique_lines lines = unique_from ∅ lines.
Proof. unfold unique_lines. by rewrite foldl_unique_lines_step. Qed.

Lemma seen_of_nil : seen_of ∅ [].
Proof. intros k. set_solver. Qed.

Lemma seen_of_snoc_keep seen pre line :
  seen_of seen pre → line_key line ≠ EmptyString →
  seen_of ({[line_key line]} ∪ seen) (pre ++ [line]).
Proof.
  intros H Hne k. specialize (H k).
  rewrite fmap_app, elem_of_app, elem_of_union. simpl.
  rewrite list_elem_of_singleton, elem_of_singleton. naive_solver.
Qed.

Lemma seen_of_snoc_skip seen pre line :
  seen_of seen pre →
  (line_key line = EmptyString ∨ line_key line ∈ seen) →
  seen_of seen (pre ++ [line]).
Proof.
  intros H Hs k. pose proof (H k) as Hk. pose proof (H (line_key line)) as Hl.
  rewrite fmap_app, elem_of_app. simpl.
  rewrite list_elem_of_singleton. naive_solver.
Qed.

Lemma unique_from_first_occurrences pre seen lines :
  seen_of seen pre →
  unique_from seen lines =
  snd <$> filter (λ p, first_occurrence (pre ++ lines) p.1 p.2)
                 (imap (λ i, pair (length pre + i)) lines).
Proof.
  revert pre seen. induction lines as [|line rest IH]; intros pre seen Hseen; [done|].
  simpl. rewrite filter_cons. simpl.
  assert (Htake : take (length pre + 0) (pre ++ line :: rest) = pre).
  { rewrite Nat.add_0_r. by rewrite take_app_length. }
  assert (Hrest : imap ((λ i, pair (length pre + i)) ∘ S) rest
                  = imap (λ i, pair (length (pre ++ [line]) + i)) rest).
  { apply imap_ext. intros i x _. simpl. rewrite length_app. simpl. f_equal. lia. }
  rewrite Hrest. replace (pre ++ line :: rest) with ((pre ++ [line]) ++ rest)
    by (by rewrite <- app_assoc).
  destruct (nonempty (line_key line) && bool_decide (line_key line ∉ seen)) eqn:E.
  - apply andb_true_iff in E as [E1 E2]. apply nonempty_true in E1.
    apply bool_decide_eq_true in E2.
    rewrite decide_True.
    + simpl. f_equal. apply IH. by apply seen_of_snoc_keep.
    + split; [done|]. rewrite <- app_assoc. simpl. rewrite Htake.
      intros Hin. apply E2, Hseen. done.
  - rewrite decide_False.
    + apply IH. apply seen_of_snoc_skip; [done|].
      apply andb_false_iff in E as [E|E].
      * left. destruct (line_key line); [done|discriminate].
      * right. apply bool_decide_eq_false in E. by apply dec_stable.
    + intros [Hne Hnin]. rewrite <- app_assoc in Hnin. simpl in Hnin. rewrite Htake in Hnin.
      apply andb_false_iff in E as [E|E].
      * apply Hne. destruct (line_key line); [done|discriminate].
      * apply bool_decide_eq_false in E. apply E. intros Hin. apply Hnin. by apply Hseen.
Qed.

Lemma unique_lines_first_occurrences lines : unique_lines lines = first_occurrences lines.
Proof.
  rewrite unique_lines_unique_from. unfold first_occurrences.
  rewrite (unique_from_first_occurrences [] ∅ lines seen_of_nil). done.
Qed.
Lemma unique_from_sublist seen lines : unique_from seen lines `sublist_of` lines.
Proof.
  revert seen. induction lines as [|line rest IH]; intros seen; simpl; [done|].
  destruct (_ && _); [by apply sublist_skip | by apply sublist_cons].
Qed.

Lemma unique_from_keys seen lines k :
  k ∈ (line_key <$> unique_from seen lines) ↔
  k ≠ EmptyString ∧ (k ∉ seen) ∧ k ∈ (line_key <$> lines).
Proof.
  revert seen. induction lines as [|line rest IH]; intros seen; simpl.
  - rewrite elem_of_nil. tauto.
  - destruct (nonempty (line_key line) && bool_decide (line_key line ∉ seen)) eqn:E.
    + apply andb_true_iff in E as [E1 E2]. apply nonempty_true in E1.
      apply bool_decide_eq_true in E2.
      rewrite fmap_cons, !elem_of_cons, IH. rewrite elem_of_union, elem_of_singleton.
      split.
      * intros [->|(?&?&?)]; [by auto|]. split; [done|]. split; [tauto|by right].
      * intros (?&?&[?|?]); [by left|]. destruct (decide (k = line_key line)); [by left|].
        right. split; [done|]. split; [|done]. intros [?|?]; done.
    + rewrite elem_of_cons, IH.
      apply andb_false_iff in E as [E|E].
      * assert (line_key line = EmptyString) as E' by (destruct (line_key line); [done|discriminate]).
        naive_solver.
      * apply bool_decide_eq_false in E. apply dec_stable in E. naive_solver.
Qed.

Lemma unique_from_NoDup seen lines : NoDup (line_key <$> unique_from seen lines).
Proof.
  revert seen. induction lines as [|line rest IH]; intros seen; simpl; [constructor|].
  destruct (nonempty (line_key line) && bool_decide (line_key line ∉ seen)) eqn:E; [|done].
  rewrite fmap_cons. constructor; [|done].
  rewrite unique_from_keys. intros (_&Hn&_). apply Hn. apply elem_of_union. left.
  by apply elem_of_singleton.
Qed.

Lemma unique_from_idemp seen lines :
  unique_from seen (unique_from seen lines) = unique_from seen lines.
Proof.
  revert seen. induction lines as [|line rest IH]; intros seen; simpl; [done|].
  destruct (nonempty (line_key line) && bool_decide (line_key line ∉ seen)) eqn:E; [|done].
  simpl. rewrite E. by rewrite IH.
Qed.

(** C10. For every list of strings, [unique_lines] returns the subsequence
    of its input made of exactly the first occurrence of each distinct key
    (the key of a line being its lowercased, stripped form, lines with an
    empty key dropped), every retained element with its original spelling
    and in input order; hence applying [unique_lines] twice is the same as
    applying it once. *)
Theorem unique_lines_first_occurrence_subsequence (lines : list string) :
  unique_lines lines = first_occurrences lines
  ∧ unique_lines lines `sublist_of` lines
  ∧ NoDup (line_key <$> unique_lines lines)
  ∧ (∀ k, k ∈ (line_key <$> unique_lines lines) ↔
          k ≠ EmptyString ∧ k ∈ (line_key <$> lines))
  ∧ unique_lines (unique_lines lines) = unique_lines lines.
Proof.
  split; [apply unique_lines_first_occurrences|].
  rewrite !unique_lines_unique_from.
  split; [apply unique_from_sublist|].
  split; [apply unique_from_NoDup|].
  split; [|apply unique_from_idemp].
  intros k. rewrite unique_from_keys. split; [tauto|].
  intros [? ?]. split; [done|]. split; [apply not_elem_of_empty|done].
Qed.

(** ** The accumulator *)

Section Accumulator.

Variable t : tools.


Lemma merge_all_prefix all_domains inputs :
  all_domains `prefix_of` merge_all t all_domains inputs.
Proof.
  revert all_domains. induction inputs as [|x inputs IH]; intros all_domains; simpl.
  - done.
  - etrans; [|apply IH]. unfold merge_new. simpl. by apply prefix_app_r.
Qed.

(** The in-process path of [run_anew]. *)
Hypothesis no_anew : anew t = None.

Lemma run_anew_in_process new_lines existing_lines :
  run_anew t new_lines existing_lines
  = filter (λ line, line_key line ∉ (line_key <$> existing_lines)) new_lines.
Proof.
  unfold run_anew. rewrite no_anew. apply list_filter_iff.
  intros line. by rewrite elem_of_list_to_set.
Qed.

Lemma run_anew_fresh new_lines : run_anew t new_lines [] = new_lines.
Proof.
  rewrite run_anew_in_process. induction new_lines as [|x l IH]; [done|].
  rewrite filter_cons_True; [by rewrite IH|]. simpl. apply not_elem_of_nil.
Qed.

Lemma run_anew_known new_lines existing_lines :
  new_lines ⊆ existing_lines → run_anew t new_lines existing_lines = [].
Proof.
  intros Hsub. rewrite run_anew_in_process.
  induction new_lines as [|x l IH]; [done|].
  rewrite filter_cons_False.
  - apply IH. intros y Hy. apply Hsub. by right.
  - simpl. intros Hn. apply Hn. apply list_elem_of_fmap_2. apply Hsub. by left.
Qed.

(** On the in-process path a second merge of the same candidates into the
    accumulator the first one left yields an empty delta and leaves the
    accumulator as it is. *)
Lemma merge_new_twice_in_process candidates :
  let all1 := (merge_new t candidates []).2 in
  merge_new t candidates all1 = ([], all1).
Proof.
  simpl. unfold merge_new. simpl. rewrite run_anew_fresh.
  rewrite run_anew_known by done. by rewrite app_nil_r.
Qed.

Lemma run_anew_keeps_distinct new_lines existing_lines :
  NoDup (line_key <$> existing_lines) →
  NoDup (line_key <$> new_lines) →
  NoDup (line_key <$> (existing_lines ++ run_anew t new_lines existing_lines)).
Proof.
  intros Hex Hnew. rewrite run_anew_in_process, fmap_app.
  apply NoDup_app. split; [done|]. split.
  - intros k Hk Hk'. apply list_elem_of_fmap in Hk' as (line & -> & Hline).
    apply list_elem_of_filter in Hline as [Hline _]. by apply Hline.
  - eapply sublist_NoDup; [exact Hnew|]. apply fmap_sublist, sublist_filter.
Qed.

Lemma merge_all_keeps_distinct all_domains inputs :
  NoDup (line_key <$> all_domains) →
  Forall (λ candidates, NoDup (line_key <$> run_unfurl_domains t candidates)) inputs →
  NoDup (line_key <$> merge_all t all_domains inputs).
Proof.
  revert all_domains. induction inputs as [|x inputs IH]; intros all_domains Hall Hin; simpl.
  - done.
  - apply Forall_cons in Hin as [Hx Hin]. apply IH; [|done].
    unfold merge_new. simpl. by apply run_anew_keeps_distinct.
Qed.

End Accumulator.

Lemma master_snapshot_distinct domain all_domains :
  NoDup (line_key <$> master_snapshot domain all_domains).
Proof. unfold master_snapshot. rewrite unique_lines_unique_from. apply unique_from_NoDup. Qed.

(** C1. On a fresh accumulator, merging the candidates [["a.example.com"]]
    a second time must return an empty delta and leave the accumulator
    unchanged. When [anew] is installed and its invocation raises,
    [run_anew] returns [unique_lines(existing_lines + new_lines)]; when it
    runs, it is fed the existing lines followed by the new ones and, printing
    each distinct line once, returns the existing lines as well. Either way
    the second merge returns the known host again and the accumulator holds
    it twice. *)
Theorem merge_new_twice_anew_raises :
  let x := ["a.example.com"] in
  (let all1 := (merge_new anew_raises x []).2 in
   all1 = ["a.example.com"]
   ∧ merge_new anew_raises x all1 = (["a.example.com"], ["a.example.com"; "a.example.com"]))
  ∧ (let all1 := (merge_new anew_prints_distinct x []).2 in
     all1 = ["a.example.com"]
     ∧ merge_new anew_prints_distinct x all1
       = (["a.example.com"], ["a.example.com"; "a.example.com"])).
Proof. repeat split; vm_compute; reflexivity. Qed.

(** C2, as the claim states it, fails: on the in-process path a single
    merge of two raw strings with equal keys into the fresh accumulator
    keeps both. *)
Lemma merge_new_keeps_equal_keys :
  let all1 := merge_all no_tools [] [["a.example.com"; "A.example.com"]] in
  all1 = ["a.example.com"; "A.example.com"]
  ∧ ¬ NoDup (line_key <$> all1).
Proof.
  split; [vm_compute; reflexivity|].
  vm_compute. intros H. apply NoDup_cons in H as [H _]. apply H. by left.
Qed.

(** C2, amended. After every sequence of merges the accumulator has its
    earlier value as a prefix (it never shrinks), whatever the tools do, and
    the snapshot [resolve_domains] writes as the master list holds no key
    twice. On the in-process path of [run_anew], when the accumulator held
    no key twice and no merged candidate list (after [run_unfurl_domains])
    holds a key twice, the accumulator holds no key twice either. *)
Theorem merge_all_grows_and_snapshot_distinct
    (t : tools) (domain : string) (all_domains : list string) (inputs : list (list string)) :
  all_domains `prefix_of` merge_all t all_domains inputs
  ∧ NoDup (line_key <$> master_snapshot domain (merge_all t all_domains inputs))
  ∧ (anew t = None →
     NoDup (line_key <$> all_domains) →
     Forall (λ candidates, NoDup (line_key <$> run_unfurl_domains t candidates)) inputs →
     NoDup (line_key <$> merge_all t all_domains inputs)).
Proof.
  split; [apply merge_all_prefix|]. split; [apply master_snapshot_distinct|].
  intros Hno Hall Hin. by apply merge_all_keeps_distinct.
Qed.

Lemma merge_all_grows_and_snapshot_distinct_witness :
  let inputs := [["a.example.com"; "b.example.com"]; ["B.example.com"; "c.example.com"]] in
  merge_all no_tools [] inputs = ["a.example.com"; "b.example.com"; "c.example.com"]
  ∧ NoDup (line_key <$> merge_all no_tools [] inputs).
Proof.
  split; [vm_compute; reflexivity|].
  apply (merge_all_grows_and_snapshot_distinct no_tools "example.com" []).
  - reflexivity.
  - constructor.
  - repeat constructor; vm_compute; set_solver.
Defined.

(** ** Strings *)

Lemma rstrip_of_idemp p s : rstrip_of p (rstrip_of p s) = rstrip_of p s.
Proof.
  induction s as [|c r IH]; simpl; [done|].
  destruct (rstrip_of p r) as [|c' r'] eqn:E.
  - destruct (p c) eqn:Ec; simpl; [done|]. by rewrite Ec.
  - simpl in *. rewrite IH. done.
Qed.

Lemma domain_normalized_rstrip domain :
  rstrip_dots (domain_normalized domain) = domain_normalized domain.
Proof. apply rstrip_of_idemp. Qed.

(** ** Sets *)

Lemma set_list_nil py : set_list py [] = [].
Proof.
  destruct (set_list py []) as [|x l] eqn:E; [done|].
  assert (x ∈ set_list py []) as H by (rewrite E; left).
  apply set_list_elem in H. by apply elem_of_nil in H.
Qed.

Lemma set_list_is_nil py xs : is_nil (set_list py xs) = is_nil xs.
Proof.
  destruct xs as [|x xs]; [by rewrite set_list_nil|].
  destruct (set_list py (x :: xs)) as [|y l] eqn:E; [|done].
  assert (x ∈ set_list py (x :: xs)) as H by (apply set_list_elem; left).
  rewrite E in H. by apply elem_of_nil in H.
Qed.

Lemma set_list_singleton py x : set_list py [x] = [x].
Proof.
  pose proof (set_list_NoDup py [x]) as Hnd.
  pose proof (set_list_elem py [x]) as Hel.
  destruct (set_list py [x]) as [|y l]; [|].
  - specialize (Hel x). rewrite elem_of_nil in Hel. exfalso. apply Hel. left.
  - assert (y = x) as -> by (apply list_elem_of_singleton, Hel; left).
    destruct l as [|z l]; [done|].
    assert (z = x) as -> by (apply list_elem_of_singleton, Hel; right; left).
    apply NoDup_cons in Hnd as [Hx _]. exfalso. apply Hx. left.
Qed.

Lemma set_list_length py xs : NoDup xs → length (set_list py xs) = length xs.
Proof.
  intros Hnd. apply Permutation_length, NoDup_Permutation; [apply set_list_NoDup|done|].
  apply set_list_elem.
Qed.

(** ** The join *)

Section Join.

Variable py : pylib.
Variable dns_data : gmap string dns_record.
Variable web_data : gmap string (list web_entry).
Variable sources_map : gmap string (list string).

Local Abbreviation row := (asset_row py dns_data web_data sources_map).
Local Abbreviation recorded_ips := (recorded_ips dns_data).
Local Abbreviation recorded_web := (recorded_web web_data).

Lemma asset_row_ips domain : ips (row domain) = take 3 (set_list py (recorded_ips domain)).
Proof.
  unfold asset_row, recorded_ips. simpl. rewrite domain_normalized_rstrip.
  by destruct (dns_data !! domain_normalized domain).
Qed.

Lemma asset_row_web_urls domain : web_urls (row domain) = w_url <$> take 2 (recorded_web domain).
Proof.
  unfold asset_row, recorded_web. simpl. rewrite domain_normalized_rstrip.
  by destruct (web_data !! domain_normalized domain).
Qed.

Lemma asset_row_status domain :
  status (row domain)
  = if is_nil (web_urls (row domain)) then
      if is_nil (ips (row domain)) then NoIP else Live
    else Web.
Proof. reflexivity. Qed.

Lemma asset_row_ips_nil domain : is_nil (ips (row domain)) = is_nil (recorded_ips domain).
Proof.
  rewrite asset_row_ips, <- (set_list_is_nil py (recorded_ips domain)).
  by destruct (set_list py (recorded_ips domain)).
Qed.

Lemma asset_row_web_nil domain : is_nil (web_urls (row domain)) = is_nil (recorded_web domain).
Proof. rewrite asset_row_web_urls. by destruct (recorded_web domain). Qed.

Lemma asset_row_bounds domain :
  length (ips (row domain)) ≤ 3 ∧ length (web_urls (row domain)) ≤ 2.
Proof.
  rewrite asset_row_ips, asset_row_web_urls, length_fmap, !length_take. lia.
Qed.

Lemma asset_row_same_key d1 d2 :
  domain_normalized d1 = domain_normalized d2 →
  ips (row d1) = ips (row d2) ∧ web_urls (row d1) = web_urls (row d2)
  ∧ sources (row d1) = sources (row d2) ∧ status (row d1) = status (row d2).
Proof. intros H. unfold asset_row. simpl. by rewrite H. Qed.

End Join.

(** ** The string primitives on concrete inputs *)

Example strip_unicode_spaces :
  strip (String "133"%char (String "160"%char (String "028"%char "a b" +:+ LF))) = "a b".
Proof. by vm_compute. Qed.

Example lower_latin1 :
  lower (String "192"%char (String "215"%char "AZ[")) = String "224"%char (String "215"%char "az[").
Proof. by vm_compute. Qed.

Example rstrip_dots_all : rstrip_dots "a..b..." = "a..b".
Proof. by vm_compute. Qed.

Example split_keeps_empty_fields : split "010"%char ("a" +:+ LF +:+ LF +:+ "b" +:+ LF) = ["a"; EmptyString; "b"; EmptyString].
Proof. by vm_compute. Qed.

(** ** Canonical forms *)

(** C3, as the claim states it, fails where strings enter the accumulator:
    its key keeps the trailing dot, so the two spellings are two entries,
    of the accumulator and of the master list. *)
Lemma accumulator_keeps_trailing_dot_spelling :
  line_key "Example.COM. " = "example.com."
  ∧ line_key "example.com" = "example.com"
  ∧ merge_all no_tools [] [["Example.COM. "]; ["example.com"]]
    = ["Example.COM. "; "example.com"]
  ∧ unique_lines ["Example.COM. "; "example.com"] = ["Example.COM. "; "example.com"].
Proof. repeat split; vm_compute; reflexivity. Qed.

(** C3, amended. The join key of [build_results_table] is the accumulator's
    key (lowercased, trimmed) with every trailing dot removed, so
    ["Example.COM. "] and ["example.com"] have the same join key
    ["example.com"], as has ["example.com.."]; two raw strings with the same
    join key get the same addresses, URLs, sources and status from the
    join. *)
Theorem join_key_identifies_spellings
    (py : pylib) (dns_data : gmap string dns_record)
    (web_data : gmap string (list web_entry)) (sources_map : gmap string (list string)) :
  domain_normalized "Example.COM. " = "example.com"
  ∧ domain_normalized "example.com" = "example.com"
  ∧ domain_normalized "example.com.." = "example.com"
  ∧ (∀ d, domain_normalized d = rstrip_dots (line_key d)
          ∧ rstrip_dots (domain_normalized d) = domain_normalized d)
  ∧ (∀ d1 d2, domain_normalized d1 = domain_normalized d2 →
       let r1 := asset_row py dns_data web_data sources_map d1 in
       let r2 := asset_row py dns_data web_data sources_map d2 in
       ips r1 = ips r2 ∧ web_urls r1 = web_urls r2
       ∧ sources r1 = sources r2 ∧ status r1 = status r2).
Proof.
  split; [by vm_compute|]. split; [by vm_compute|]. split; [by vm_compute|].
  split.
  - intros d. split; [done|apply domain_normalized_rstrip].
  - intros d1 d2 H. by apply asset_row_same_key.
Qed.

Lemma join_key_identifies_spellings_witness :
  let r1 := asset_row insertion_order join_dns join_web join_sources "X.Example.COM. " in
  let r2 := asset_row insertion_order join_dns join_web join_sources "x.example.com" in
  ips r1 = ips r2 ∧ web_urls r1 = web_urls r2
  ∧ sources r1 = sources r2 ∧ status r1 = status r2.
Proof.
  apply (join_key_identifies_spellings insertion_order join_dns join_web join_sources).
  vm_compute. reflexivity.
Defined.

(** ** Resolution stage *)

(** C4, as the claim states it, fails: a host whose record carries a CNAME
    only is written to the live list. *)
Lemma cname_only_host_is_live :
  let d := cname_only_line "x.example.com" "y.example.net" in
  dl_a d = None ∧ dl_aaaa d = None
  ∧ live_hosts [Parsed d] = ["x.example.com"].
Proof. repeat split; vm_compute; reflexivity. Qed.

(** C4, amended. A key is in the live list exactly when it is not empty and
    some parsed record of [resolved.json] names a host with that key in its
    [host] field, a string or a list, whichever record types the record
    carries; every live host is the spelling some record gives; and this
    list is what [resolve_domains] writes to [live.assets] when dnsx leaves
    a [resolved.json]. *)
Theorem live_hosts_are_named_hosts (lines : list json_line) :
  (∀ k, k ∈ (line_key <$> live_hosts lines) ↔
        k ≠ EmptyString ∧ ∃ d h, Parsed d ∈ lines ∧ h ∈ hosts_of d ∧ line_key h = k)
  ∧ (∀ h, h ∈ live_hosts lines → ∃ d, Parsed d ∈ lines ∧ h ∈ hosts_of d)
  ∧ (∀ t run domain all_domains fs,
       dnsx t = Some run →
       run (run_unfurl_domains t (master_snapshot domain all_domains)) = Some lines →
       live_assets (resolve_domains t domain all_domains fs) = Some (live_hosts lines)).
Proof.
  split; [|split]; [| |intros t run dom all_domains fs Hd Hrun; unfold resolve_domains;
    rewrite Hd; simpl; fold (master_snapshot dom all_domains); by rewrite Hrun].
  all: unfold live_hosts.
  - intros k. rewrite unique_lines_unique_from, unique_from_keys.
    rewrite list_elem_of_fmap. setoid_rewrite list_elem_of_bind.
    split.
    + intros (Hk & _ & h & -> & [|d] & Hh & Hl); [by apply elem_of_nil in Hh|].
      split; [done|]. by exists d, h.
    + intros (Hk & d & h & Hd & Hh & <-). split; [done|].
      split; [apply not_elem_of_empty|]. exists h. split; [done|]. by exists (Parsed d).
  - intros h Hh. rewrite unique_lines_unique_from in Hh.
    apply (sublist_subseteq _ _ (unique_from_sublist _ _)) in Hh.
    apply list_elem_of_bind in Hh as ([|d] & Hh & Hl); [by apply elem_of_nil in Hh|].
    by exists d.
Qed.

Lemma live_hosts_are_named_hosts_witness :
  let lines := [Parsed (cname_only_line "x.example.com" "y.example.net"); Unparseable] in
  live_assets (resolve_domains (dnsx_writes lines) "example.com" ["x.example.com"] no_files)
  = Some (live_hosts lines).
Proof.
  intros lines.
  apply (proj2 (proj2 (live_hosts_are_named_hosts lines))
           (dnsx_writes lines) (λ _, Some lines)); reflexivity.
Defined.

(** ** The report *)



(** C5. [build_results_table] classifies a host in priority order: [Web]
    when the web map holds at least one endpoint under its join key,
    otherwise [Live] when the DNS map holds at least one A or AAAA value,
    otherwise [No IP]. On the accumulator [["x.example.com"]] with the
    address 1.2.3.4, one endpoint and the attribution
    [["passive-enumeration"]] it yields exactly one record: status [Web],
    addresses [["1.2.3.4"]], one URL, sources ["passive-enumeration"]. *)
Theorem build_results_status_priority (py : pylib) :
  (∀ dns_data web_data sources_map d,
     let r := asset_row py dns_data web_data sources_map d in
     (status r = Web ↔ recorded_web web_data d ≠ [])
     ∧ (status r = Live ↔ recorded_web web_data d = [] ∧ recorded_ips dns_data d ≠ [])
     ∧ (status r = NoIP ↔ recorded_web web_data d = [] ∧ recorded_ips dns_data d = []))
  ∧ build_results py ["x.example.com"] join_dns join_web join_sources
    = [ {| domain := "x.example.com"; ips := ["1.2.3.4"];
           web_urls := ["http://x.example.com"];
           sources := "passive-enumeration"; status := Web |} ].
Proof.
  split.
  - intros dns_data web_data sources_map d r. subst r.
    rewrite asset_row_status, asset_row_web_nil, asset_row_ips_nil.
    destruct (recorded_web web_data d) as [|w ws], (recorded_ips dns_data d) as [|i il];
      simpl; repeat split; intros; try done; naive_solver.
  - unfold build_results. simpl. f_equal.
    unfold asset_row.
    replace (domain_normalized "x.example.com") with "x.example.com" by (by vm_compute).
    unfold join_dns, join_web, join_sources. rewrite !lookup_singleton_eq. simpl.
    rewrite set_list_singleton. reflexivity.
Qed.

(** ** Loading the DNS map *)

Lemma load_dns_stored lines dns_data h r :
  load_dns lines dns_data !! h = Some r →
  dns_data !! h = Some r
  ∨ ∃ d, Parsed d ∈ lines ∧ dl_host d = Some (HostStr h) ∧ r = dns_record_of d.
Proof.
  revert dns_data. induction lines as [|l lines IH]; intros dns_data H; simpl in H; [by left|].
  assert (Hrest : ∀ m, load_dns lines m !! h = Some r → m = dns_data →
            dns_data !! h = Some r
            ∨ ∃ d, Parsed d ∈ l :: lines ∧ dl_host d = Some (HostStr h) ∧ r = dns_record_of d).
  { intros m Hm ->. destruct (IH _ Hm) as [?|(d&?&?&?)]; [by left|].
    right. exists d. split; [by right|done]. }
  destruct l as [|d]; [by eapply Hrest|].
  destruct (dl_host d) as [[h'|[|x hs]]|] eqn:Hd; try by eapply Hrest.
  - destruct (nonempty h'); [|by eapply Hrest].
    destruct (IH _ H) as [Hl|(d'&?&?&?)].
    + destruct (decide (h' = h)) as [->|Hne].
      * rewrite lookup_insert_eq in Hl. injection Hl as <-.
        right. exists d. split; [by left|done].
      * rewrite lookup_insert_ne in Hl by done. by left.
    + right. exists d'. split; [by right|done].
  - by left.
Qed.

(** C8. The records of the report carry at most 3 addresses and at most 2
    URLs, whatever the files hold, while every value of the DNS map is the
    complete record of a line of [resolved.json]. For a host resolved to the
    addresses [addrs], the DNS map holds all of [addrs], and the one record
    of the report holds at most 3 of them: exactly 3 when [addrs] are 5
    distinct addresses. *)
Theorem truncation_is_display_only (py : pylib) :
  (∀ fs, Forall (λ r, length (ips r) ≤ 3 ∧ length (web_urls r) ≤ 2)
                (build_results_table py fs))
  ∧ (∀ lines h r, load_dns lines ∅ !! h = Some r →
       ∃ d, Parsed d ∈ lines ∧ dl_host d = Some (HostStr h)
            ∧ dns_a r = default [] (dl_a d) ∧ dns_aaaa r = default [] (dl_aaaa d))
  ∧ (∀ addrs,
       let fs := resolved_files "x.example.com" addrs in
       dns_a <$> (load_dns (default [] (resolved_json fs)) ∅ !! "x.example.com") = Some addrs
       ∧ ∃ r, build_results_table py fs = [r]
              ∧ length (ips r) ≤ 3 ∧ ips r ⊆ addrs
              ∧ (NoDup addrs → length addrs = 5 → length (ips r) = 3)).
Proof.
  split; [|split].
  - intros fs. unfold build_results_table. destruct (master_file fs); [|constructor].
    unfold build_results. apply Forall_fmap, Forall_forall. intros d _.
    apply (asset_row_bounds py _ _ _ d).
  - intros lines h r H. apply load_dns_stored in H as [H|(d&?&?&->)]; [done|].
    by exists d.
  - intros addrs fs. split; [by vm_compute|].
    exists (asset_row py (load_dns [Parsed (dns_line_of "x.example.com" addrs)] ∅) ∅ ∅
                      "x.example.com").
    split; [reflexivity|]. rewrite asset_row_ips.
    assert (recorded_ips (load_dns [Parsed (dns_line_of "x.example.com" addrs)] ∅)
              "x.example.com" = addrs) as ->.
    { unfold recorded_ips.
      replace (domain_normalized "x.example.com") with "x.example.com" by (by vm_compute).
      simpl. rewrite lookup_insert_eq. simpl. apply app_nil_r. }
    split; [rewrite length_take; lia|]. split.
    + intros x Hx. apply (sublist_subseteq _ _ (sublist_take _ _)) in Hx.
      by apply set_list_elem in Hx.
    + intros Hnd Hlen. rewrite length_take, set_list_length by done. lia.
Qed.

Lemma truncation_is_display_only_witness :
  let addrs := ["10.0.0.1"; "10.0.0.2"; "10.0.0.3"; "10.0.0.4"; "10.0.0.5"] in
  let fs := resolved_files "x.example.com" addrs in
  dns_a <$> (load_dns (default [] (resolved_json fs)) ∅ !! "x.example.com") = Some addrs
  ∧ ips <$> build_results_table insertion_order fs = [["10.0.0.1"; "10.0.0.2"; "10.0.0.3"]]
  ∧ ∃ r, build_results_table insertion_order fs = [r] ∧ length (ips r) = 3.
Proof.
  intros addrs fs. split; [by vm_compute|]. split; [by vm_compute|].
  destruct (proj2 (proj2 (truncation_is_display_only insertion_order)) addrs)
    as (_ & r & Hr & _ & _ & Hlen).
  exists r. split; [exact Hr|]. apply Hlen; [|reflexivity].
  repeat (constructor; [vm_compute; set_solver|]). constructor.
Defined.



(** ** Stripping *)

Lemma is_space_lower_char c : is_space (lower_char c) = is_space c.
Proof. destruct c as [[] [] [] [] [] [] [] []]; reflexivity. Qed.

Lemma all_of_lower s : all_of is_space (lower s) = all_of is_space s.
Proof. induction s as [|c r IH]; simpl; [done|]. by rewrite is_space_lower_char, IH. Qed.

Lemma lstrip_of_empty p s : lstrip_of p s = EmptyString ↔ all_of p s = true.
Proof.
  induction s as [|c r IH]; simpl; [done|].
  destruct (p c); simpl; [done|]. split; intros; discriminate.
Qed.

Lemma rstrip_of_empty p s : rstrip_of p s = EmptyString ↔ all_of p s = true.
Proof.
  induction s as [|c r IH]; simpl; [done|].
  destruct (rstrip_of p r) eqn:E.
  - destruct (p c); simpl; [tauto|]. split; intros; discriminate.
  - split; [discriminate|]. intros H. apply andb_true_iff in H as [_ H].
    apply IH in H. discriminate.
Qed.

Lemma all_of_lstrip_of p s : all_of p (lstrip_of p s) = all_of p s.
Proof. induction s as [|c r IH]; simpl; [done|]. destruct (p c) eqn:E; simpl; [done|by rewrite E]. Qed.

Lemma strip_empty s : strip s = EmptyString ↔ all_of is_space s = true.
Proof. unfold strip. by rewrite rstrip_of_empty, all_of_lstrip_of. Qed.

Lemma line_key_strip_nonempty s : nonempty (line_key s) = nonempty (strip s).
Proof.
  unfold line_key.
  destruct (strip (lower s)) eqn:E1, (strip s) eqn:E2; try done.
  - apply strip_empty in E1. rewrite all_of_lower in E1. apply strip_empty in E1. congruence.
  - apply strip_empty in E2. rewrite <- all_of_lower in E2. apply strip_empty in E2. congruence.
Qed.

Lemma lstrip_of_head_outside p s : head_outside p (lstrip_of p s).
Proof. induction s as [|c r IH]; simpl; [done|]. destruct (p c) eqn:E; [done|]. simpl. done. Qed.

Lemma rstrip_of_head_outside p s : head_outside p s → head_outside p (rstrip_of p s).
Proof.
  destruct s as [|c r]; simpl; [done|]. intros H.
  destruct (rstrip_of p r); [by rewrite H|done].
Qed.

Lemma lstrip_of_id p s : head_outside p s → lstrip_of p s = s.
Proof. destruct s as [|c r]; simpl; [done|]. by intros ->. Qed.

Lemma strip_idemp s : strip (strip s) = strip s.
Proof.
  unfold strip. rewrite (lstrip_of_id is_space (rstrip_of _ _)).
  - apply rstrip_of_idemp.
  - apply rstrip_of_head_outside, lstrip_of_head_outside.
Qed.

(** ** Reading files back *)

Lemma read_file_lines_all_kept lines :
  Forall (λ l, nonempty (strip l) = true) lines →
  read_file_lines (Some lines) = strip <$> lines.
Proof.
  intros H. simpl. induction H as [|l lines Hl H IH]; [done|].
  rewrite fmap_cons, filter_cons_True by by rewrite Hl. by rewrite IH.
Qed.

Lemma unique_from_strip_nonempty seen lines :
  Forall (λ l, nonempty (strip l) = true) (unique_from seen lines).
Proof.
  revert seen. induction lines as [|line rest IH]; intros seen; simpl; [constructor|].
  destruct (nonempty (line_key line)) eqn:E; simpl; [|apply IH].
  destruct (bool_decide _); [|apply IH]. constructor; [|apply IH].
  by rewrite <- line_key_strip_nonempty.
Qed.

Lemma stdout_lines_strip_nonempty out :
  Forall (λ l, nonempty (strip l) = true) (stdout_lines out).
Proof.
  unfold stdout_lines. apply Forall_forall. intros l Hl.
  apply list_elem_of_filter in Hl as [Hne Hl].
  apply list_elem_of_fmap in Hl as (x & -> & _). rewrite strip_idemp.
  by destruct (nonempty (strip x)).
Qed.

Lemma master_lines_strip_nonempty t domain all_domains :
  Forall (λ l, nonempty (strip l) = true)
         (run_unfurl_domains t (master_snapshot domain all_domains)).
Proof.
  assert (H : Forall (λ l, nonempty (strip l) = true) (master_snapshot domain all_domains)).
  { unfold master_snapshot. rewrite unique_lines_unique_from. apply unique_from_strip_nonempty. }
  unfold run_unfurl_domains. destruct (unfurl t) as [run|]; [|done].
  destruct (run _); [apply stdout_lines_strip_nonempty|done].
Qed.

(** ** Degraded resolution *)

Lemma read_file_lines_touch f : read_file_lines (touch f) = read_file_lines f.
Proof. by destruct f. Qed.

Lemma asset_row_no_data py sources_map d :
  let r := asset_row py ∅ ∅ sources_map d in
  status r = NoIP ∧ ips r = [] ∧ web_urls r = [].
Proof.
  simpl. unfold asset_row. rewrite !lookup_empty. simpl. by rewrite set_list_nil.
Qed.

(** When [./live.assets] holds no line as the run starts (it is missing, or
    empty), the report of a run without dnsx has one record per line of the
    master list, in its order, each [No IP] with no address and no URL. *)
Lemma no_dnsx_report_all_no_ip py t dom all_domains prior sources :
  dnsx t = None →
  read_file_lines (live_assets prior) = [] →
  let master := run_unfurl_domains t (master_snapshot dom all_domains) in
  let results := report_run py t dom all_domains (after_enumeration prior sources) in
  domain <$> results = strip <$> master
  ∧ length results = length master
  ∧ Forall (λ r, status r = NoIP ∧ ips r = [] ∧ web_urls r = []) results.
Proof.
  intros Hd Hlive master results. subst results. unfold report_run, resolve_domains.
  rewrite Hd. fold (master_snapshot dom all_domains). fold master.
  unfold web_discovery. simpl.
  destruct (touch (live_assets prior)) as [live|] eqn:Ht.
  2: { by destruct (live_assets prior). }
  rewrite <- Ht, read_file_lines_touch, Hlive.
  unfold build_results_table, build_results. simpl master_file. cbv iota beta.
  rewrite (read_file_lines_all_kept master) by apply master_lines_strip_nonempty.
  simpl resolved_json. simpl web_intelligence_csv. cbv iota beta.
  split; [|split].
  - rewrite <- list_fmap_compose. by rewrite list_fmap_id.
  - by rewrite !length_fmap.
  - apply Forall_fmap, Forall_forall. intros d _. apply asset_row_no_data.
Qed.

(** C7. Without dnsx the report must classify every host of the master list
    [No IP], with no URL. [resolve_domains] only touches [./live.assets]:
    when an earlier run left it with the line [x.example.com] and httpx is
    installed, [web_discovery] probes that host, and the report classifies
    it [Web] with one URL. *)
Theorem report_without_dnsx_stale_live_assets :
  dnsx httpx_only = None
  ∧ report_run insertion_order httpx_only "example.com" ["x.example.com"]
      (after_enumeration stale_live_assets [])
    = [ {| domain := "x.example.com"; ips := [];
           web_urls := ["http://x.example.com"]; sources := "unknown"; status := Web |};
        {| domain := "www.example.com"; ips := []; web_urls := [];
           sources := "unknown"; status := NoIP |};
        {| domain := "example.com"; ips := []; web_urls := [];
           sources := "unknown"; status := NoIP |} ].
Proof. split; vm_compute; reflexivity. Qed.

(** ** The matcher *)

Section Matcher.

Context {R : Type}.

Lemma rep_sound (r : re) (step : list ascii → (list ascii → option R) → option R) :
  (∀ s k x, step s k = Some x → ∃ s', matches r s s' ∧ k s' = Some x) →
  ∀ budget lo s k x,
    rep step lo budget s k = Some x →
    ∃ n s', lo ≤ n ∧ n ≤ budget ∧ iterates r n s s' ∧ k s' = Some x.
Proof.
  intros Hstep. induction budget as [|budget IH]; intros lo s k x H; simpl in H.
  - destruct lo; [|done]. exists 0, s. repeat split; [lia..|constructor|done].
  - destruct (step s _) as [y|] eqn:E.
    + injection H as ->. apply Hstep in E as (s1 & Hm & E).
      apply IH in E as (n & s' & Hlo & Hb & Hit & Hk).
      exists (S n), s'. repeat split; [lia..|by econstructor|done].
    + destruct lo; [|done]. exists 0, s. repeat split; [lia..|constructor|done].
Qed.

Lemma m_sound (r : re) : ∀ s (k : list ascii → option R) x,
  m r s k = Some x → ∃ s', matches r s s' ∧ k s' = Some x.
Proof.
  induction r as [p| |r1 IH1 r2 IH2|r IH lo hi]; intros s k x H; simpl in H.
  - destruct s as [|c s]; [done|]. destruct (p c) eqn:E; [|done].
    exists s. split; [by constructor|done].
  - destruct (at_eol s) eqn:E; [|done]. exists s. split; [by constructor|done].
  - apply IH1 in H as (s1 & H1 & H). apply IH2 in H as (s2 & H2 & H).
    exists s2. split; [by econstructor|done].
  - apply (rep_sound r _ IH) in H as (n & s' & Hlo & Hb & Hit & Hk).
    exists s'. split; [|done]. apply (matches_rep _ _ _ n); [done| |done].
    destruct hi; simpl in *; [done|done].
Qed.

End Matcher.

Lemma match_at_sound r s rest : match_at r s = Some rest → matches r s rest.
Proof.
  intros H. apply m_sound in H as (s' & H & Hk). by injection Hk as ->.
Qed.

Lemma matches_chr_inv p s s' : matches (Chr p) s s' → ∃ c, s = c :: s' ∧ p c = true.
Proof. inversion 1; subst. by eexists. Qed.

Lemma iterates_chr_inv p n s s' :
  iterates (Chr p) n s s' →
  ∃ run, s = run ++ s' ∧ length run = n ∧ Forall (λ c, p c = true) run.
Proof.
  revert s. induction n as [|n IH]; intros s H;
    inversion H as [|? ? ? s1 ? Hm Hit]; subst.
  - by exists [].
  - apply matches_chr_inv in Hm as (c & -> & Hc). apply IH in Hit as (run & -> & Hlen & Hall).
    exists (c :: run). simpl. repeat split; [by rewrite Hlen|by constructor].
Qed.

Lemma matches_rep_chr_inv p lo hi s s' :
  matches (Rep (Chr p) lo (Some hi)) s s' →
  ∃ run, s = run ++ s' ∧ length run ≤ hi ∧ Forall (λ c, p c = true) run.
Proof.
  inversion 1 as [| | |? ? ? n ? ? Hlo Hhi Hit]; subst. simpl in Hhi.
  apply iterates_chr_inv in Hit as (run & -> & Hlen & Hall).
  exists run. repeat split; [lia|done].
Qed.

(** What a match of the root pattern consumes: a run of characters other
    than a dot, then at most 8 characters, up to the end of a line. *)
Lemma root_regex_shape s rest :
  matches root_regex s rest →
  ∃ run mid, s = run ++ mid ++ rest ∧ Forall (λ c, not_dot c = true) run
             ∧ length mid ≤ 8 ∧ at_eol rest = true.
Proof.
  unfold root_regex. intros H.
  inversion H as [| |? ? ? s1 ? Hrun H1|]; subst; clear H.
  inversion H1 as [| |? ? ? s2 ? Hany H2|]; subst; clear H1.
  inversion H2 as [| |? ? ? s3 ? Hy H3|]; subst; clear H2.
  inversion H3 as [| |? ? ? s4 ? Hopt Heol|]; subst; clear H3.
  inversion Heol; subst; clear Heol.
  inversion Hrun as [| | |? ? ? n ? ? _ _ Hit]; subst; clear Hrun.
  apply iterates_chr_inv in Hit as (run & -> & _ & Hall).
  apply matches_chr_inv in Hany as (c & -> & _).
  apply matches_rep_chr_inv in Hy as (y & -> & Hylen & _).
  exists run.
  inversion Hopt as [| | |? ? ? n' ? ? _ Hhi Hit]; subst; clear Hopt. simpl in Hhi.
  inversion Hit as [|? ? ? s5 ? Hgrp Hit']; subst; clear Hit.
  - exists (c :: y). split; [done|]. split; [done|]. split; [simpl; lia|done].
  - inversion Hit'; subst; [|lia].
    inversion Hgrp as [| |? ? ? s6 ? Hz Hy'|]; subst; clear Hgrp.
    apply matches_chr_inv in Hz as (z & -> & _).
    apply matches_rep_chr_inv in Hy' as (y' & -> & Hy'len & _).
    exists (c :: y ++ z :: y'). split.
    + simpl. by rewrite <- ?app_assoc.
    + split; [done|]. split; [|done]. simpl. rewrite length_app. simpl. lia.
Qed.

(** ** The root pattern on concrete hosts *)

Example finditer_three_labels :
  finditer root_regex "foo.example.co.uk" = ["example.co.uk"].
Proof. by vm_compute. Qed.

Example finditer_short_labels : finditer root_regex "a.bb.com" = ["a.bb.com"].
Proof. by vm_compute. Qed.

Example finditer_long_suffix : finditer root_regex "x.y.info" = ["info"].
Proof. by vm_compute. Qed.

Example finditer_two_lines :
  finditer root_regex ("ab.cde" +:+ LF +:+ "foo.example.com") = ["ab.cde"; "example.com"].
Proof. by vm_compute. Qed.

Example roots_of_no_dot : roots_of "x.y.info" = [].
Proof. by vm_compute. Qed.

(** ** Root extraction under [example.com] *)

Lemma finditer_from_skip fuel r c s :
  match_at r (c :: s) = None →
  finditer_from (S fuel) r (c :: s) = finditer_from fuel r s.
Proof. intros H. simpl. by rewrite H. Qed.

Lemma no_root_match_before c pre :
  Forall (λ x, is_newline x = false) (c :: pre) →
  match_at root_regex (c :: pre ++ dot_example_com) = None.
Proof.
  intros Hnl. destruct (match_at _ _) as [rest|] eqn:E; [exfalso|done].
  apply match_at_sound, root_regex_shape in E as (run & mid & Hs & Hrun & Hmid & Heol).
  assert (Hall : Forall (λ x, is_newline x = false) (c :: pre ++ dot_example_com)).
  { rewrite app_comm_cons. apply Forall_app. split; [done|].
    unfold dot_example_com. simpl. repeat constructor. }
  assert (rest = []) as ->.
  { destruct rest as [|ch rest']; [done|]. simpl in Heol.
    rewrite Hs, !Forall_app in Hall. destruct Hall as (_ & _ & Hrest).
    apply Forall_cons in Hrest as [Hch _]. congruence. }
  rewrite app_nil_r in Hs.
  assert (Hlen : S (length pre) + 12 = length run + length mid).
  { rewrite <- length_app, <- Hs. simpl. rewrite length_app. reflexivity. }
  assert (Hdot : (c :: pre ++ dot_example_com) !! S (length pre) = Some "."%char).
  { simpl. rewrite lookup_app_r by lia. by rewrite Nat.sub_diag. }
  rewrite Hs, lookup_app_l in Hdot by lia.
  eapply Forall_lookup in Hrun; [|exact Hdot]. discriminate.
Qed.

Lemma finditer_from_under_example_com pre :
  Forall (λ x, is_newline x = false) pre →
  finditer_from (S (length (pre ++ dot_example_com))) root_regex (pre ++ dot_example_com)
  = [String.list_ascii_of_string "example.com"].
Proof.
  induction pre as [|c pre IH]; intros Hnl.
  - by vm_compute.
  - change ((c :: pre) ++ dot_example_com) with (c :: pre ++ dot_example_com).
    change (length (c :: pre ++ dot_example_com)) with (S (length (pre ++ dot_example_com))).
    rewrite finditer_from_skip by by apply no_root_match_before.
    apply IH. by apply Forall_cons in Hnl as [_ ?].
Qed.

Lemma list_ascii_of_string_app s1 s2 :
  String.list_ascii_of_string (s1 +:+ s2)
  = String.list_ascii_of_string s1 ++ String.list_ascii_of_string s2.
Proof. induction s1 as [|c s1 IH]; simpl; [done|]. by rewrite <- IH. Qed.

Lemma length_list_ascii_of_string s :
  length (String.list_ascii_of_string s) = String.length s.
Proof. induction s as [|c s IH]; simpl; [done|]. by rewrite IH. Qed.

Lemma contains_newline_false q :
  contains "010"%char q = false →
  Forall (λ x, is_newline x = false) (String.list_ascii_of_string q).
Proof.
  induction q as [|c q IH]; simpl; [constructor|]. intros H.
  apply orb_false_iff in H as [Hc Hq]. constructor; [done|by apply IH].
Qed.

Lemma finditer_under_example_com q :
  contains "010"%char q = false →
  finditer root_regex (q +:+ "." +:+ "example.com") = ["example.com"].
Proof.
  intros Hq. unfold finditer.
  rewrite <- length_list_ascii_of_string, list_ascii_of_string_app.
  change (String.list_ascii_of_string ("." +:+ "example.com")) with dot_example_com.
  rewrite finditer_from_under_example_com by by apply contains_newline_false.
  reflexivity.
Qed.

Lemma roots_of_under_example_com h :
  under_root "example.com" h → roots_of h = [] ∨ roots_of h = ["example.com"].
Proof.
  intros (q & Hq & Hnl). unfold roots_of. rewrite Hq.
  destruct (_ || _); [by left|right].
  rewrite finditer_under_example_com by done. by vm_compute.
Qed.

Lemma set_list_constant py (x : string) xs :
  xs ≠ [] → (∀ y, y ∈ xs → y = x) → set_list py xs = [x].
Proof.
  intros Hne Hall.
  pose proof (set_list_NoDup py xs) as Hnd.
  pose proof (set_list_elem py xs) as Hel.
  assert (Hx : x ∈ xs).
  { destruct xs as [|y xs]; [done|]. rewrite <- (Hall y) by left. left. }
  destruct (set_list py xs) as [|y l].
  - apply Hel in Hx. by apply elem_of_nil in Hx.
  - assert (y = x) as -> by (apply Hall, Hel; left).
    destruct l as [|z l]; [done|].
    assert (z = x) as -> by (apply Hall, Hel; right; left).
    apply NoDup_cons in Hnd as [Hn _]. exfalso. apply Hn. left.
Qed.

(** C6. Root extraction on the hosts [a.b.example.com], [example.com],
    [www.example.com] yields exactly [example.com]; run again on the
    accumulator widened by any hosts under [example.com], it yields the same
    root list. *)
Theorem root_extraction_fixed_point (py : pylib) :
  root_domain_list py example_hosts = ["example.com"]
  ∧ ∀ widened,
      Forall (under_root "example.com") widened →
      root_domain_list py (example_hosts ++ widened)
      = root_domain_list py example_hosts.
Proof.
  assert (Hroots : ∀ widened, Forall (under_root "example.com") widened →
            root_domain_list py (example_hosts ++ widened) = ["example.com"]).
  { intros widened Hw. unfold root_domain_list, extract_root_domains.
    rewrite bind_app.
    replace (example_hosts ≫= roots_of)
      with ["example.com"; "example.com"; "example.com"] by (by vm_compute).
    rewrite (set_list_constant py "example.com"); [by vm_compute|done|].
    intros y Hy. apply elem_of_app in Hy as [Hy|Hy].
    - rewrite !elem_of_cons, elem_of_nil in Hy. naive_solver.
    - apply list_elem_of_bind in Hy as (h & Hy & Hh).
      eapply Forall_forall in Hw; [|exact Hh].
      destruct (roots_of_under_example_com h Hw) as [E|E]; rewrite E in Hy.
      + by apply elem_of_nil in Hy.
      + by apply list_elem_of_singleton in Hy. }
  split.
  - rewrite <- (app_nil_r example_hosts). by apply Hroots.
  - intros widened Hw. rewrite Hroots by done.
    rewrite <- (app_nil_r example_hosts). symmetry. by apply Hroots.
Qed.

Lemma root_extraction_fixed_point_witness :
  let widened := ["mail.example.com"; " X.Y.Example.COM"; "a b.example.com"] in
  root_domain_list insertion_order (example_hosts ++ widened) = ["example.com"].
Proof.
  intros widened.
  rewrite (proj2 (root_extraction_fixed_point insertion_order) widened).
  - apply (proj1 (root_extraction_fixed_point insertion_order)).
  - repeat constructor.
    + by exists "mail".
    + by exists "x.y".
    + by exists "a b".
Defined.

(** * Further properties of the code *)

(** ** Directory names and line files *)












(** ** Lines through a filter tool *)

Lemma split_nonempty c s : split c s ≠ [].
Proof.
  induction s as [|d r IH]; simpl; [done|].
  case_bool_decide; [done|]. by destruct (split c r).
Qed.

Lemma join_cons_cons sep l l' rest :
  join sep (l :: l' :: rest) = l +:+ sep +:+ join sep (l' :: rest).
Proof. reflexivity. Qed.

Lemma join_split c s : join (String c EmptyString) (split c s) = s.
Proof.
  induction s as [|d r IH]; simpl; [done|].
  pose proof (split_nonempty c r) as Hne.
  case_bool_decide as Hd.
  - subst d. destruct (split c r) as [|f fs]; [done|].
    rewrite join_cons_cons, IH. reflexivity.
  - destruct (split c r) as [|f [|g gs]]; [done| |].
    + simpl in *. by rewrite IH.
    + rewrite join_cons_cons. rewrite join_cons_cons in IH. by rewrite <- IH.
Qed.

Lemma split_fields c s : Forall (λ f, contains c f = false) (split c s).
Proof.
  induction s as [|d r IH]; simpl; [by repeat constructor|].
  case_bool_decide as Hd; [by constructor|].
  destruct (split c r) as [|f fs]; [by repeat constructor; simpl; rewrite bool_decide_eq_false_2|].
  apply Forall_cons in IH as [Hf Hfs]. constructor; [|done].
  simpl. by rewrite bool_decide_eq_false_2, Hf.
Qed.

Lemma split_field_sep c l rest :
  contains c l = false →
  split c (l +:+ String c rest) = l :: split c rest.
Proof.
  induction l as [|d l IH]; intros H.
  - change (EmptyString +:+ String c rest) with (String c rest). simpl.
    by rewrite bool_decide_eq_true_2.
  - simpl in H. apply orb_false_iff in H as [Hd Hl]. apply bool_decide_eq_false in Hd.
    change (String d l +:+ String c rest) with (String d (l +:+ String c rest)).
    simpl. rewrite bool_decide_eq_false_2 by done. by rewrite IH.
Qed.

Lemma split_no_sep c l : contains c l = false → split c l = [l].
Proof.
  induction l as [|d l IH]; intros H; [done|].
  simpl in H. apply orb_false_iff in H as [Hd Hl]. apply bool_decide_eq_false in Hd.
  simpl. rewrite bool_decide_eq_false_2 by done. by rewrite IH.
Qed.

Lemma split_join c lines :
  lines ≠ [] → Forall (λ l, contains c l = false) lines →
  split c (join (String c EmptyString) lines) = lines.
Proof.
  intros Hne H. induction H as [|l lines Hl H IH]; [done|].
  destruct lines as [|l' rest].
  - simpl. by apply split_no_sep.
  - rewrite join_cons_cons.
    change (l +:+ String c EmptyString +:+ join (String c EmptyString) (l' :: rest))
      with (l +:+ String c (join (String c EmptyString) (l' :: rest))).
    rewrite split_field_sep by done. by rewrite IH.
Qed.

Lemma stdout_lines_join lines :
  Forall (λ l, contains "010"%char l = false) lines →
  stdout_lines (join LF lines) = filter (λ l, nonempty l) (strip <$> lines).
Proof.
  intros H. unfold stdout_lines. destruct lines as [|l rest]; [done|].
  unfold LF. by rewrite split_join.
Qed.

(** X3. Whatever unfurl prints, the lines [run_unfurl_domains] takes from it are
    stripped and not empty; when unfurl prints its input back, they are the
    stripped non-blank input lines, in order. *)
Theorem run_unfurl_domains_lines (t : tools) (run : string → option string)
    (input_lines : list string) :
  unfurl t = Some run →
  (∀ out, run (join LF input_lines) = Some out →
          Forall (λ l, l ≠ EmptyString ∧ strip l = l) (run_unfurl_domains t input_lines))
  ∧ (run (join LF input_lines) = Some (join LF input_lines) →
     Forall (λ l, contains "010"%char l = false) input_lines →
     run_unfurl_domains t input_lines
     = filter (λ l, nonempty l) (strip <$> input_lines)).
Proof.
  intros Ht. unfold run_unfurl_domains. rewrite Ht. split.
  - intros out ->. unfold stdout_lines. apply Forall_forall. intros l Hl.
    apply list_elem_of_filter in Hl as [Hne Hl].
    apply list_elem_of_fmap in Hl as (x & -> & _).
    split; [by destruct (strip x)|apply strip_idemp].
  - intros -> H. by apply stdout_lines_join.
Qed.

Lemma run_unfurl_domains_lines_witness :
  run_unfurl_domains unfurl_echoes [" a.example.com "; " "; "B.example.com"]
  = ["a.example.com"; "B.example.com"].
Proof.
  rewrite (proj2 (run_unfurl_domains_lines unfurl_echoes (λ input, Some input)
                    [" a.example.com "; " "; "B.example.com"] eq_refl) eq_refl).
  - by vm_compute.
  - repeat constructor.
Defined.

(** ** De-duplication and the in-process filter *)

Lemma unique_from_seen_ext s1 s2 lines :
  (∀ k, k ≠ EmptyString → k ∈ s1 ↔ k ∈ s2) →
  unique_from s1 lines = unique_from s2 lines.
Proof.
  revert s1 s2. induction lines as [|line rest IH]; intros s1 s2 H; simpl; [done|].
  destruct (nonempty (line_key line)) eqn:E; simpl; [|by apply IH].
  apply nonempty_true in E.
  rewrite (bool_decide_ext (line_key line ∉ s1) (line_key line ∉ s2))
    by (by rewrite (H _ E)).
  destruct (bool_decide _); [|by apply IH].
  f_equal. apply IH. intros k Hk. rewrite !elem_of_union. by rewrite (H _ Hk).
Qed.

Lemma unique_from_app seen xs ys :
  unique_from seen (xs ++ ys)
  = unique_from seen xs ++ unique_from (list_to_set (line_key <$> xs) ∪ seen) ys.
Proof.
  revert seen. induction xs as [|line rest IH]; intros seen; simpl.
  - apply unique_from_seen_ext. intros k _. rewrite elem_of_union. set_solver.
  - destruct (nonempty (line_key line) && bool_decide (line_key line ∉ seen)) eqn:E.
    + simpl. f_equal. rewrite IH. f_equal. apply unique_from_seen_ext.
      intros k _. rewrite !elem_of_union. tauto.
    + rewrite IH. f_equal. apply unique_from_seen_ext. intros k Hk.
      rewrite !elem_of_union, elem_of_singleton.
      apply andb_false_iff in E as [E|E].
      * assert (line_key line = EmptyString) by (by destruct (line_key line)).
        split; [tauto|]. intros [[->|?]|?]; [done|tauto..].
      * apply bool_decide_eq_false in E. apply dec_stable in E.
        split; [tauto|]. intros [[->|?]|?]; tauto.
Qed.

Lemma unique_from_filter seen s2 lines :
  unique_from (seen ∪ s2) lines
  = unique_from s2 (filter (λ l, line_key l ∉ seen) lines).
Proof.
  revert s2. induction lines as [|line rest IH]; intros s2; simpl; [done|].
  destruct (decide (line_key line ∈ seen)) as [Hin|Hnin].
  - rewrite filter_cons_False by (by intros ?).
    rewrite (bool_decide_eq_false_2 (line_key line ∉ seen ∪ s2)), andb_false_r.
    + apply IH.
    + intros Hn. apply Hn. apply elem_of_union. by left.
  - rewrite filter_cons_True by done. simpl.
    rewrite (bool_decide_ext (line_key line ∉ seen ∪ s2) (line_key line ∉ s2)).
    2: { rewrite elem_of_union. tauto. }
    destruct (_ && _); [|apply IH]. f_equal. rewrite <- IH.
    apply unique_from_seen_ext. intros k _. rewrite !elem_of_union. tauto.
Qed.

(** X4. What the [except] path of [run_anew] returns, [unique_lines] of the
    existing lines followed by the new ones, is [unique_lines] of the existing
    lines followed by [unique_lines] of the delta of the in-process path. *)
Theorem unique_lines_app_run_anew (t : tools) (new_lines existing_lines : list string) :
  anew t = None →
  unique_lines (existing_lines ++ new_lines)
  = unique_lines existing_lines ++ unique_lines (run_anew t new_lines existing_lines).
Proof.
  intros Ht. unfold run_anew. rewrite Ht. simpl.
  rewrite !unique_lines_unique_from, unique_from_app. f_equal.
  apply unique_from_filter.
Qed.

Lemma unique_lines_app_run_anew_witness :
  unique_lines (["a.example.com"; "b.example.com"] ++ ["B.example.com"; "c.example.com"])
  = unique_lines ["a.example.com"; "b.example.com"]
    ++ unique_lines (run_anew no_tools ["B.example.com"; "c.example.com"]
                              ["a.example.com"; "b.example.com"]).
Proof. apply (unique_lines_app_run_anew no_tools). reflexivity. Defined.

(** X5. On the in-process path without unfurl, the delta of a merge is a
    subsequence of the candidates, none of its keys was known, and after the
    merge a key is known exactly when it was known before or is the key of a
    candidate. *)
Theorem merge_new_keys (t : tools) (candidates all_domains : list string) :
  anew t = None → unfurl t = None →
  let delta := (merge_new t candidates all_domains).1 in
  let all' := (merge_new t candidates all_domains).2 in
  delta `sublist_of` candidates
  ∧ (∀ l, l ∈ delta → line_key l ∉ (line_key <$> all_domains))
  ∧ (∀ k, k ∈ (line_key <$> all') ↔
          k ∈ (line_key <$> all_domains) ∨ k ∈ (line_key <$> candidates)).
Proof.
  intros Ha Hu. unfold merge_new, run_unfurl_domains. rewrite Hu. simpl.
  rewrite (run_anew_in_process t Ha). split; [apply sublist_filter|]. split.
  - intros l Hl. by apply list_elem_of_filter in Hl as [Hl _].
  - intros k. rewrite fmap_app, elem_of_app, !list_elem_of_fmap.
    setoid_rewrite list_elem_of_filter. split.
    + intros [H|(l & -> & _ & Hl)]; [by left|right; by exists l].
    + intros [H|(l & -> & Hl)]; [by left|].
      destruct (decide (line_key l ∈ line_key <$> all_domains)) as [Hin|Hnin].
      * left. by apply list_elem_of_fmap in Hin.
      * right. by exists l.
Qed.

Lemma merge_new_keys_witness :
  let delta := (merge_new no_tools ["B.example.com"; "c.example.com"] ["b.example.com"]).1 in
  delta `sublist_of` ["B.example.com"; "c.example.com"]
  ∧ (∀ l, l ∈ delta → line_key l ∉ (line_key <$> ["b.example.com"])).
Proof.
  destruct (merge_new_keys no_tools ["B.example.com"; "c.example.com"] ["b.example.com"]
              eq_refl eq_refl) as (H1 & H2 & _).
  split; [exact H1|exact H2].
Defined.

(** ** Loading the maps of the join *)

Lemma load_dns_stops pre d post x xs dns_data :
  dl_host d = Some (HostList (x :: xs)) →
  load_dns (pre ++ Parsed d :: post) dns_data = load_dns pre dns_data.
Proof.
  intros Hd. revert dns_data. induction pre as [|l pre IH]; intros dns_data; simpl.
  - by rewrite Hd.
  - destruct l as [|d']; [apply IH|].
    destruct (dl_host d') as [[h|[|y ys]]|]; try apply IH; [|done].
    destruct (nonempty h); apply IH.
Qed.

Lemma load_dns_app pre rest dns_data :
  Forall string_host pre →
  load_dns (pre ++ rest) dns_data = load_dns rest (load_dns pre dns_data).
Proof.
  intros H. revert dns_data. induction H as [|l pre Hl H IH]; intros dns_data; simpl; [done|].
  destruct l as [|d]; [apply IH|]. simpl in Hl.
  destruct (dl_host d) as [[h|[|y ys]]|]; try apply IH; [|done].
  destruct (nonempty h); apply IH.
Qed.

Lemma load_dns_unnamed lines dns_data h :
  (∀ d, Parsed d ∈ lines → dl_host d ≠ Some (HostStr h)) →
  load_dns lines dns_data !! h = dns_data !! h.
Proof.
  revert dns_data. induction lines as [|l lines IH]; intros dns_data H; simpl; [done|].
  assert (Hrest : ∀ d, Parsed d ∈ lines → dl_host d ≠ Some (HostStr h))
    by (intros d Hd; apply H; by right).
  destruct l as [|d]; [by apply IH|].
  destruct (dl_host d) as [[h'|[|y ys]]|] eqn:Hd; [|by apply IH|done|by apply IH].
  destruct (nonempty h'); [|by apply IH].
  rewrite IH by done. apply lookup_insert_ne. intros ->.
  by apply (H d); [left|].
Qed.

(** X6. A record whose [host] is a non-empty list ends the loading of
    [dns_data]: what follows it in [resolved.json] is not loaded. Among
    records whose hosts are strings the last one naming a host wins: its
    complete record is the value of that host. *)
Theorem load_dns_order (pre post : list json_line) (d : dns_line)
    (dns_data : gmap string dns_record) :
  (∀ x xs, dl_host d = Some (HostList (x :: xs)) →
     load_dns (pre ++ Parsed d :: post) dns_data = load_dns pre dns_data)
  ∧ (∀ h, dl_host d = Some (HostStr h) → h ≠ EmptyString →
       Forall string_host pre →
       (∀ d', Parsed d' ∈ post → dl_host d' ≠ Some (HostStr h)) →
       load_dns (pre ++ Parsed d :: post) dns_data !! h = Some (dns_record_of d)).
Proof.
  split.
  - intros x xs Hd. by eapply load_dns_stops.
  - intros h Hd Hh Hpre Hpost. rewrite load_dns_app by done. simpl. rewrite Hd.
    destruct h as [|c h]; [done|]. simpl.
    rewrite load_dns_unnamed by done. apply lookup_insert_eq.
Qed.

Lemma load_dns_order_witness :
  load_dns ([Unparseable; Parsed (dns_line_of "x.example.com" ["10.0.0.1"])]
            ++ Parsed (dns_line_of "x.example.com" ["10.0.0.2"])
            :: [Parsed (cname_only_line "y.example.com" "x.example.com")]) ∅
    !! "x.example.com"
  = Some (dns_record_of (dns_line_of "x.example.com" ["10.0.0.2"])).
Proof.
  apply (proj2 (load_dns_order _ _ _ ∅) "x.example.com"); [reflexivity|done| |].
  - repeat constructor.
  - intros d' Hd'. apply list_elem_of_singleton in Hd'. injection Hd' as ->.
    simpl. intros [=].
Defined.




(** ** Source attribution *)

Lemma add_source_elem n sm d k n' :
  n' ∈ default [] (add_source n sm d !! k) ↔
  n' ∈ default [] (sm !! k)
  ∨ (n' = n ∧ domain_normalized d = k ∧ k ≠ EmptyString).
Proof.
  unfold add_source. destruct (nonempty (domain_normalized d)) eqn:E.
  - apply nonempty_true in E. case_bool_decide as Hin.
    + destruct (decide (domain_normalized d = k)) as [<-|Hne].
      * rewrite lookup_insert_eq. simpl. naive_solver.
      * rewrite lookup_insert_ne by done. naive_solver.
    + destruct (decide (domain_normalized d = k)) as [<-|Hne].
      * rewrite lookup_insert_eq. simpl. rewrite elem_of_app, list_elem_of_singleton.
        naive_solver.
      * rewrite lookup_insert_ne by done. naive_solver.
  - assert (domain_normalized d = EmptyString) by (by destruct (domain_normalized d)).
    naive_solver.
Qed.

Lemma add_source_ok n sm d : sources_ok sm → sources_ok (add_source n sm d).
Proof.
  intros Hok k l. unfold add_source.
  destruct (nonempty (domain_normalized d)); [|apply Hok].
  assert (Hknown : NoDup (default [] (sm !! domain_normalized d))).
  { destruct (sm !! domain_normalized d) as [l'|] eqn:E; simpl; [|constructor].
    by apply (Hok _ _ E). }
  case_bool_decide as Hin.
  - destruct (decide (domain_normalized d = k)) as [<-|Hne].
    + rewrite lookup_insert_eq. intros [= <-]. split; [done|]. intros E. rewrite E in Hin.
      by apply elem_of_nil in Hin.
    + rewrite lookup_insert_ne by done. apply Hok.
  - destruct (decide (domain_normalized d = k)) as [<-|Hne].
    + rewrite lookup_insert_eq. intros [= <-]. split.
      * apply NoDup_app. split; [done|]. split; [|apply NoDup_singleton].
        intros x Hx Hx'. apply list_elem_of_singleton in Hx' as ->. done.
      * by destruct (default [] (sm !! domain_normalized d)).
    + rewrite lookup_insert_ne by done. apply Hok.
Qed.

Lemma add_sources_elem n lines sm k n' :
  n' ∈ default [] (foldl (add_source n) sm lines !! k) ↔
  n' ∈ default [] (sm !! k)
  ∨ (n' = n ∧ k ≠ EmptyString ∧ ∃ d, d ∈ lines ∧ domain_normalized d = k).
Proof.
  revert sm. induction lines as [|d lines IH]; intros sm; simpl.
  - split; [by left|]. intros [?|(_ & _ & d & Hd & _)]; [done|]. by apply elem_of_nil in Hd.
  - rewrite IH, add_source_elem. setoid_rewrite elem_of_cons. naive_solver.
Qed.

Lemma add_sources_ok n lines sm : sources_ok sm → sources_ok (foldl (add_source n) sm lines).
Proof.
  revert sm. induction lines as [|d lines IH]; intros sm H; simpl; [done|].
  by apply IH, add_source_ok.
Qed.

Lemma load_sources_foldl_elem sfs sm k n :
  n ∈ default [] (foldl load_sources_step sm sfs !! k) ↔
  n ∈ default [] (sm !! k)
  ∨ (k ≠ EmptyString
     ∧ ∃ lines d, (n, Some lines) ∈ sfs ∧ d ∈ read_file_lines (Some lines)
                  ∧ domain_normalized d = k).
Proof.
  revert sm. induction sfs as [|[name f] sfs IH]; intros sm; simpl.
  - split; [by left|]. intros [?|(_ & lines & d & H & _)]; [done|]. by apply elem_of_nil in H.
  - rewrite IH. unfold load_sources_step. simpl.
    setoid_rewrite elem_of_cons. destruct f as [lines|].
    + rewrite add_sources_elem. split.
      * intros [[?|(-> & ? & d & ? & ?)]|(? & lines' & d & ? & ?)]; [by left|right..].
        -- split; [done|]. exists lines, d. by split; [left|].
        -- split; [done|]. exists lines', d. by split; [right|].
      * intros [?|(? & lines' & d & [[= -> ->]|?] & ? & ?)]; [by left; left|left; right|right].
        -- split; [done|]. split; [done|]. by exists d.
        -- split; [done|]. by exists lines', d.
    + split.
      * intros [?|(? & lines' & d & ? & ?)]; [by left|right].
        split; [done|]. exists lines', d. by split; [right|].
      * intros [?|(? & lines' & d & [[=]|?] & ? & ?)]; [by left|right].
        split; [done|]. by exists lines', d.
Qed.

Lemma load_sources_foldl_ok sfs sm : sources_ok sm → sources_ok (foldl load_sources_step sm sfs).
Proof.
  revert sm. induction sfs as [|[name f] sfs IH]; intros sm H; simpl; [done|].
  apply IH. unfold load_sources_step. simpl. destruct f; [by apply add_sources_ok|done].
Qed.

Lemma load_sources_elems (source_files : list (string * text_file)) (k : string) :
  (∀ n, n ∈ default [] (load_sources source_files !! k) ↔
        k ≠ EmptyString
        ∧ ∃ lines d, (n, Some lines) ∈ source_files ∧ d ∈ read_file_lines (Some lines)
                     ∧ domain_normalized d = k)
  ∧ NoDup (default [] (load_sources source_files !! k))
  ∧ load_sources source_files !! k ≠ Some [].
Proof.
  change (load_sources source_files) with (foldl load_sources_step ∅ source_files).
  assert (Hok : sources_ok (foldl load_sources_step ∅ source_files)).
  { apply load_sources_foldl_ok. intros k' l. by rewrite lookup_empty. }
  split; [|split].
  - intros n. rewrite load_sources_foldl_elem, lookup_empty. simpl.
    rewrite elem_of_nil. tauto.
  - destruct (foldl _ _ _ !! k) as [l|] eqn:E; simpl; [|constructor]. by apply (Hok _ _ E).
  - intros E. by apply Hok in E as [_ ?].
Qed.

(** X8. A source is attributed to a join key exactly when the key is not empty
    and the file of that source exists and holds a line with that key; the
    list of a key names no source twice and is never empty. *)
Theorem load_sources_attribution (source_files : list (string * text_file)) (k : string) :
  (∀ n, n ∈ default [] (load_sources source_files !! k) ↔
        k ≠ EmptyString
        ∧ ∃ lines d, (n, Some lines) ∈ source_files ∧ d ∈ read_file_lines (Some lines)
                     ∧ domain_normalized d = k)
  ∧ NoDup (default [] (load_sources source_files !! k))
  ∧ load_sources source_files !! k ≠ Some [].
Proof.
  change (load_sources source_files) with (foldl load_sources_step ∅ source_files).
  assert (Hok : sources_ok (foldl load_sources_step ∅ source_files)).
  { apply load_sources_foldl_ok. intros k' l. by rewrite lookup_empty. }
  split; [|split].
  - intros n. rewrite load_sources_foldl_elem, lookup_empty. simpl.
    rewrite elem_of_nil. tauto.
  - destruct (foldl _ _ _ !! k) as [l|] eqn:E; simpl; [|constructor]. by apply (Hok _ _ E).
  - intros E. by apply Hok in E as [_ ?].
Qed.

(** ** The report and [cleanup] in the order of [run] *)

Lemma cleanup_raw_lookup d name :
  name ≠ "rootdomain.txtls" →
  raw_txtls (cleanup d) !! name
  = match out_txtls d !! name with
    | Some lines => Some lines
    | None => raw_txtls d !! name
    end.
Proof.
  intros Hne. unfold cleanup. simpl. rewrite lookup_union, map_lookup_filter.
  destruct (out_txtls d !! name) as [lines|]; simpl.
  - rewrite option_guard_True by done. simpl. by destruct (raw_txtls d !! name).
  - by destruct (raw_txtls d !! name).
Qed.

Lemma cleanup_raw_lookup_root d :
  raw_txtls (cleanup d) !! "rootdomain.txtls" = raw_txtls d !! "rootdomain.txtls".
Proof.
  unfold cleanup. simpl. rewrite lookup_union, map_lookup_filter.
  destruct (out_txtls d !! "rootdomain.txtls") as [lines|]; simpl.
  - by destruct (raw_txtls d !! "rootdomain.txtls").
  - by destruct (raw_txtls d !! "rootdomain.txtls").
Qed.

Lemma cleanup_out_lookup d name :
  out_txtls (cleanup d) !! name
  = if decide (name = "rootdomain.txtls") then out_txtls d !! name else None.
Proof.
  unfold cleanup. simpl. rewrite map_lookup_filter.
  destruct (out_txtls d !! name) as [lines|]; simpl; [|by case_decide].
  case_decide.
  - by rewrite option_guard_True.
  - by rewrite option_guard_False.
Qed.

Lemma load_sources_chaos_only d k n :
  raw_txtls d = ∅ →
  n ∈ default [] (load_sources (report_source_files d) !! k) →
  n = "chaos".
Proof.
  intros Hraw Hn. apply load_sources_elems in Hn as (_ & lines & line & Hin & _).
  unfold report_source_files in Hin. rewrite Hraw, !lookup_empty in Hin.
  apply elem_of_app in Hin as [Hin|Hin].
  - rewrite !elem_of_cons, elem_of_nil in Hin. naive_solver.
  - destruct (out_txtls d !! "chaos.txtls"); [|by apply elem_of_nil in Hin].
    apply list_elem_of_singleton in Hin. by injection Hin as -> _.
Qed.

Lemma constant_NoDup_list (x : string) l :
  NoDup l → l ≠ [] → (∀ y, y ∈ l → y = x) → l = [x].
Proof.
  intros Hnd Hne Hall. destruct l as [|y l]; [done|].
  assert (y = x) as -> by (apply Hall; left).
  destruct l as [|z l]; [done|].
  assert (z = x) as -> by (apply Hall; right; left).
  apply NoDup_cons in Hnd as [Hn _]. exfalso. apply Hn. left.
Qed.

(** X9. [run] builds the report in [generate_summary], before [cleanup] moves
    the per-source files to [raw_output/], where [build_results_table] looks
    for them: while [raw_output/] holds no [*.txtls] file, every record of
    the report has the sources [unknown], or [chaos] when [chaos.txtls] holds
    a line with the join key of the record. *)
Theorem report_sources_before_cleanup (py : pylib) (d : txtls_dirs)
    (dns_data : gmap string dns_record) (web_data : gmap string (list web_entry))
    (h : string) :
  raw_txtls d = ∅ →
  let r := asset_row py dns_data web_data (load_sources (report_source_files d)) h in
  (sources r = "unknown" ∨ sources r = "chaos")
  ∧ (sources r = "chaos" ↔
     domain_normalized h ≠ EmptyString
     ∧ ∃ lines line, out_txtls d !! "chaos.txtls" = Some lines
                     ∧ line ∈ read_file_lines (Some lines)
                     ∧ domain_normalized line = domain_normalized h).
Proof.
  intros Hraw. simpl. unfold asset_row. simpl. rewrite domain_normalized_rstrip.
  set (sm := load_sources (report_source_files d)).
  set (k := domain_normalized h).
  destruct (load_sources_elems (report_source_files d) k) as (Hel & Hnd & Hne).
  fold sm in Hel, Hnd, Hne.
  assert (Hchaos : ∀ n, n ∈ default [] (sm !! k) → n = "chaos")
    by (intros n; by apply load_sources_chaos_only).
  assert (Hlist : default [] (sm !! k) = [] ∨ default [] (sm !! k) = ["chaos"]).
  { destruct (default [] (sm !! k)) as [|x l] eqn:E; [by left|right].
    rewrite <- E in *. apply constant_NoDup_list; [done| |done]. by rewrite E. }
  assert (Hiff : default [] (sm !! k) = ["chaos"] ↔
            k ≠ EmptyString
            ∧ ∃ lines line, out_txtls d !! "chaos.txtls" = Some lines
                            ∧ line ∈ read_file_lines (Some lines)
                            ∧ domain_normalized line = k).
  { split.
    - intros E. assert ("chaos" ∈ default [] (sm !! k)) as Hin by (rewrite E; left).
      apply Hel in Hin as (Hk & lines & line & Hin & Hline & Hkey).
      split; [done|]. exists lines, line. split; [|done].
      unfold report_source_files in Hin. rewrite Hraw, !lookup_empty in Hin.
      apply elem_of_app in Hin as [Hin|Hin].
      + rewrite !elem_of_cons, elem_of_nil in Hin. naive_solver.
      + destruct (out_txtls d !! "chaos.txtls"); [|by apply elem_of_nil in Hin].
        apply list_elem_of_singleton in Hin. by injection Hin as ->.
    - intros (Hk & lines & line & Hout & Hline & Hkey).
      destruct Hlist as [E|E]; [|done]. exfalso.
      assert ("chaos" ∈ default [] (sm !! k)) as Hin.
      { apply Hel. split; [done|]. exists lines, line. split; [|done].
        unfold report_source_files. rewrite Hout. apply elem_of_app. right. left. }
      rewrite E in Hin. by apply elem_of_nil in Hin. }
  destruct Hlist as [E|E]; rewrite E; simpl.
  - split; [by left|]. rewrite <- Hiff, E. split; [done|discriminate].
  - split; [by right|]. by rewrite <- Hiff, E.
Qed.

Lemma report_sources_before_cleanup_witness :
  sources (asset_row insertion_order ∅ ∅
             (load_sources (report_source_files dirs_before_cleanup)) "b.example.com")
  = "unknown"
  ∨ sources (asset_row insertion_order ∅ ∅
               (load_sources (report_source_files dirs_before_cleanup)) "b.example.com")
    = "chaos".
Proof.
  apply (report_sources_before_cleanup insertion_order dirs_before_cleanup ∅ ∅
           "b.example.com" eq_refl).
Defined.

(** X10. [cleanup] leaves [rootdomain.txtls] alone in the output directory, moves
    every other [*.txtls] file to [raw_output/], and run a second time
    changes nothing. Afterwards [build_results_table] would find the files
    of the five tools, and no longer [chaos.txtls], which it looks for in
    the output directory. *)
Theorem cleanup_moves_source_files (d : txtls_dirs) :
  cleanup (cleanup d) = cleanup d
  ∧ out_txtls (cleanup d) !! "rootdomain.txtls" = out_txtls d !! "rootdomain.txtls"
  ∧ (∀ name, name ≠ "rootdomain.txtls" →
       out_txtls (cleanup d) !! name = None
       ∧ (∀ lines, out_txtls d !! name = Some lines →
                   raw_txtls (cleanup d) !! name = Some lines))
  ∧ (raw_txtls d = ∅ →
     report_source_files (cleanup d)
     = [ ("amass", out_txtls d !! "amass.txtls");
         ("findomain", out_txtls d !! "findomain.txtls");
         ("wayback", out_txtls d !! "wayback.txtls");
         ("certificate", out_txtls d !! "whois.txtls");
         ("subfinder", out_txtls d !! "subfinder2.txtls") ]).
Proof.
  split; [|split; [|split]].
  - assert (Heq : ∀ a b, out_txtls a = out_txtls b → raw_txtls a = raw_txtls b → a = b)
      by (intros [] []; simpl; congruence).
    apply Heq; apply map_eq; intros name.
    + rewrite !cleanup_out_lookup. by case_decide.
    + destruct (decide (name = "rootdomain.txtls")) as [->|Hne].
      * by rewrite !cleanup_raw_lookup_root.
      * rewrite (cleanup_raw_lookup (cleanup d)) by done.
        by rewrite cleanup_out_lookup, decide_False.
  - by rewrite cleanup_out_lookup, decide_True.
  - intros name Hne. split.
    + by rewrite cleanup_out_lookup, decide_False.
    + intros lines Hl. by rewrite cleanup_raw_lookup, Hl.
  - intros Hraw. unfold report_source_files.
    rewrite cleanup_out_lookup, decide_False by done.
    rewrite !cleanup_raw_lookup by done. rewrite Hraw, !lookup_empty. simpl.
    repeat f_equal; by match goal with |- context [out_txtls d !! ?n] =>
      destruct (out_txtls d !! n) end.
Qed.

Lemma cleanup_moves_source_files_witness :
  report_source_files (cleanup dirs_before_cleanup)
  = [ ("amass", Some ["a.example.com"; "b.example.com"]);
      ("findomain", None); ("wayback", None); ("certificate", None); ("subfinder", None) ].
Proof.
  rewrite (proj2 (proj2 (proj2 (cleanup_moves_source_files dirs_before_cleanup))) eq_refl).
  by vm_compute.
Defined.

(** ** The labels of a root *)

Lemma finditer_from_elem fuel r s mt :
  mt ∈ finditer_from fuel r s →
  ∃ s' rest, match_at r s' = Some rest ∧ mt = take (length s' - length rest) s'.
Proof.
  revert s. induction fuel as [|fuel IH]; intros s H; simpl in H; [by apply elem_of_nil in H|].
  destruct (match_at r s) as [rest|] eqn:E.
  - destruct (take (length s - length rest) s) as [|c mt'] eqn:Et.
    + destruct s as [|c s'].
      * apply list_elem_of_singleton in H as ->. exists [], rest. by rewrite Et.
      * apply elem_of_cons in H as [->|H]; [|by apply IH in H].
        exists (c :: s'), rest. by rewrite Et.
    + apply elem_of_cons in H as [->|H]; [|by apply IH in H].
      exists s, rest. by rewrite Et.
  - destruct s as [|c s']; [by apply elem_of_nil in H|]. by apply IH in H.
Qed.

(** What a match of the root pattern consumes, character by character. *)
Lemma root_regex_match s rest :
  matches root_regex s rest →
  ∃ run c y opt,
    s = (run ++ c :: y ++ opt) ++ rest
    ∧ Forall (λ x, not_dot x = true) run ∧ Forall (λ x, not_dot x = true) y
    ∧ (opt = [] ∨ ∃ z y', opt = z :: y' ∧ Forall (λ x, not_dot x = true) y').
Proof.
  unfold root_regex. intros H.
  inversion H as [| |? ? ? s1 ? Hrun H1|]; subst; clear H.
  inversion H1 as [| |? ? ? s2 ? Hany H2|]; subst; clear H1.
  inversion H2 as [| |? ? ? s3 ? Hy H3|]; subst; clear H2.
  inversion H3 as [| |? ? ? s4 ? Hopt Heol|]; subst; clear H3.
  inversion Heol; subst; clear Heol.
  inversion Hrun as [| | |? ? ? n ? ? _ _ Hit]; subst; clear Hrun.
  apply iterates_chr_inv in Hit as (run & -> & _ & Hall).
  apply matches_chr_inv in Hany as (c & -> & _).
  apply matches_rep_chr_inv in Hy as (y & -> & _ & Hyall).
  exists run, c, y.
  inversion Hopt as [| | |? ? ? n' ? ? _ Hhi Hit]; subst; clear Hopt. simpl in Hhi.
  inversion Hit as [|? ? ? s5 ? Hgrp Hit']; subst; clear Hit.
  - exists []. split; [|by auto]. rewrite app_nil_r.
    rewrite <- ?app_assoc. simpl. by rewrite <- ?app_assoc.
  - inversion Hit'; subst; [|lia].
    inversion Hgrp as [| |? ? ? s6 ? Hz Hy'|]; subst; clear Hgrp.
    apply matches_chr_inv in Hz as (z & -> & _).
    apply matches_rep_chr_inv in Hy' as (y' & -> & _ & Hy'all).
    exists (z :: y'). split; [|by eauto 10].
    rewrite <- ?app_assoc. simpl. rewrite <- ?app_assoc. simpl. by rewrite <- ?app_assoc.
Qed.

Lemma dots_list l : dots (String.string_of_list_ascii l) = length (filter (λ c, is_dot c = true) l).
Proof.
  induction l as [|c l IH]; simpl; [done|]. rewrite IH.
  destruct (is_dot c) eqn:E.
  - by rewrite filter_cons_True.
  - by rewrite filter_cons_False by (by rewrite E).
Qed.

Lemma filter_dots_none l :
  Forall (λ x, not_dot x = true) l → filter (λ c, is_dot c = true) l = [].
Proof.
  induction 1 as [|c l Hc H IH]; [done|].
  rewrite filter_cons_False; [done|]. unfold not_dot in Hc. by destruct (is_dot c).
Qed.

Lemma length_filter_one {A} (P : A → Prop) `{∀ x, Decision (P x)} (c : A) :
  length (filter P [c]) ≤ 1.
Proof. rewrite filter_cons. destruct (decide (P c)); simpl; lia. Qed.

Lemma root_match_dots fuel s mt :
  mt ∈ finditer_from fuel root_regex s →
  length (filter (λ c, is_dot c = true) mt) ≤ 2.
Proof.
  intros H. apply finditer_from_elem in H as (s' & rest & Hm & ->).
  apply match_at_sound, root_regex_match in Hm as (run & c & y & opt & -> & Hrun & Hy & Hopt).
  rewrite length_app, Nat.add_sub, take_app_length.
  rewrite filter_app, (filter_dots_none run) by done. simpl.
  change (c :: y ++ opt) with ([c] ++ y ++ opt).
  rewrite !filter_app, (filter_dots_none y), !length_app by done. simpl.
  pose proof (length_filter_one (λ c, is_dot c = true) c).
  destruct Hopt as [->|(z & y' & -> & Hy')].
  - simpl. lia.
  - change (z :: y') with ([z] ++ y'). rewrite filter_app, (filter_dots_none y'), length_app by done.
    pose proof (length_filter_one (λ c, is_dot c = true) z). simpl. lia.
Qed.

Lemma is_dot_lower_char c : is_dot (lower_char c) = is_dot c.
Proof. destruct c as [[] [] [] [] [] [] [] []]; reflexivity. Qed.

Lemma is_space_not_dot c : is_space c = true → is_dot c = false.
Proof. destruct c as [[] [] [] [] [] [] [] []]; simpl; intros; done. Qed.

Lemma dots_lower s : dots (lower s) = dots s.
Proof. induction s as [|c r IH]; simpl; [done|]. by rewrite is_dot_lower_char, IH. Qed.

Lemma dots_lstrip s : dots (lstrip_of is_space s) = dots s.
Proof.
  induction s as [|c r IH]; simpl; [done|].
  destruct (is_space c) eqn:E; [|done]. by rewrite IH, (is_space_not_dot c E).
Qed.

Lemma dots_rstrip s : dots (rstrip_of is_space s) = dots s.
Proof.
  induction s as [|c r IH]; simpl; [done|]. rewrite <- IH.
  destruct (rstrip_of is_space r); [|done].
  destruct (is_space c) eqn:E; simpl; [|done]. by rewrite (is_space_not_dot c E).
Qed.

Lemma dots_strip s : dots (strip s) = dots s.
Proof. unfold strip. by rewrite dots_rstrip, dots_lstrip. Qed.

Lemma contains_dot_dots s : contains "."%char s = true → 1 ≤ dots s.
Proof.
  induction s as [|c r IH]; simpl; [done|]. intros H.
  apply orb_true_iff in H as [H|H].
  - unfold is_dot. rewrite H. lia.
  - apply IH in H. lia.
Qed.

(** X11. Every root [extract_root_domains] returns holds one or two dots: it is
    made of two or three labels, whichever hosts it is given. *)
Theorem extract_root_domains_labels (py : pylib) (domains : list string) (root : string) :
  root ∈ extract_root_domains py domains →
  root ≠ EmptyString ∧ 1 ≤ dots root ≤ 2.
Proof.
  unfold extract_root_domains. rewrite set_list_elem, list_elem_of_bind.
  intros (h & Hroot & _). unfold roots_of in Hroot.
  destruct (_ || _); [by apply elem_of_nil in Hroot|].
  apply list_elem_of_filter in Hroot as [Hf Hroot].
  apply andb_prop_elim in Hf as [Hne Hdot]. apply Is_true_true in Hne, Hdot.
  split; [by apply nonempty_true|]. split; [by apply contains_dot_dots|].
  apply list_elem_of_fmap in Hroot as (mt & -> & Hmt).
  unfold finditer in Hmt. apply list_elem_of_fmap in Hmt as (l & -> & Hl).
  rewrite dots_strip, dots_lower, dots_list.
  by eapply root_match_dots.
Qed.

Lemma extract_root_domains_labels_witness :
  "example.co.uk" ∈ extract_root_domains insertion_order ["foo.example.co.uk"; "x.y.info"]
  ∧ 1 ≤ dots "example.co.uk" ≤ 2.
Proof.
  assert (H : "example.co.uk"
              ∈ extract_root_domains insertion_order ["foo.example.co.uk"; "x.y.info"])
    by (vm_compute; left).
  split; [exact H|].
  exact (proj2 (extract_root_domains_labels insertion_order _ _ H)).
Defined.

(** ** The master list and the live list *)

Lemma line_key_www_nonempty dom : line_key ("www." +:+ dom) ≠ EmptyString.
Proof.
  unfold line_key. intros H. apply strip_empty in H.
  change ("www." +:+ dom) with (String "w" (String "w" (String "w" (String "." dom)))) in H.
  simpl in H. discriminate.
Qed.

Lemma unique_lines_keys lines k :
  k ∈ (line_key <$> unique_lines lines) ↔ k ≠ EmptyString ∧ k ∈ (line_key <$> lines).
Proof.
  rewrite unique_lines_unique_from, unique_from_keys. split; [tauto|].
  intros [? ?]. split; [done|]. split; [apply not_elem_of_empty|done].
Qed.

(** X12. [resolve_domains] writes the master list whether or not dnsx is
    installed. Without unfurl it holds no key twice, and its keys are the
    non-empty keys of the accumulated hosts, of [www.<domain>] and of the
    domain itself. *)
Theorem resolve_domains_master_list (t : tools) (dom : string)
    (all_domains : list string) (fs : files) :
  unfurl t = None →
  ∃ master,
    master_file (resolve_domains t dom all_domains fs) = Some master
    ∧ NoDup (line_key <$> master)
    ∧ master `sublist_of` all_domains ++ ["www." +:+ dom; dom]
    ∧ line_key ("www." +:+ dom) ∈ (line_key <$> master)
    ∧ (∀ k, k ∈ (line_key <$> master) ↔
            k ≠ EmptyString
            ∧ (k ∈ (line_key <$> all_domains) ∨ k = line_key ("www." +:+ dom)
               ∨ k = line_key dom)).
Proof.
  intros Hu. exists (master_snapshot dom all_domains).
  assert (Hkeys : ∀ k, k ∈ (line_key <$> master_snapshot dom all_domains) ↔
            k ≠ EmptyString
            ∧ (k ∈ (line_key <$> all_domains) ∨ k = line_key ("www." +:+ dom)
               ∨ k = line_key dom)).
  { intros k. unfold master_snapshot.
    rewrite unique_lines_keys.
    rewrite fmap_app, elem_of_app. simpl. rewrite !elem_of_cons, elem_of_nil. tauto. }
  split; [|split; [|split; [|split]]].
  - unfold resolve_domains, run_unfurl_domains. rewrite Hu. by destruct (dnsx t).
  - apply master_snapshot_distinct.
  - unfold master_snapshot. rewrite unique_lines_unique_from. apply unique_from_sublist.
  - apply Hkeys. split; [apply line_key_www_nonempty|tauto].
  - exact Hkeys.
Qed.

Lemma resolve_domains_master_list_witness :
  ∃ master,
    master_file (resolve_domains no_tools "example.com" ["A.example.com"; "a.example.com "]
                   no_files) = Some master
    ∧ master = ["A.example.com"; "www.example.com"; "example.com"].
Proof.
  destruct (resolve_domains_master_list no_tools "example.com"
              ["A.example.com"; "a.example.com "] no_files eq_refl)
    as (master & Hm & _).
  exists master. split; [exact Hm|].
  vm_compute in Hm. by injection Hm as <-.
Defined.

Lemma live_hosts_read lines :
  read_file_lines (Some (live_hosts lines)) = strip <$> live_hosts lines.
Proof.
  apply read_file_lines_all_kept. unfold live_hosts.
  rewrite unique_lines_unique_from. apply unique_from_strip_nonempty.
Qed.

(** X13. After [resolve_domains] wrote the live list, [web_discovery] runs httpx
    only when the list is not empty and httpx is installed, and only then
    removes [./live.assets]: without httpx, or with an empty list, the file
    stays in the working directory and [web_intelligence.csv] is as it
    was. *)
Theorem live_assets_after_web_discovery (t : tools)
    (run : list string → option (list json_line)) (lines : list json_line)
    (dom : string) (all_domains : list string) (fs : files) :
  dnsx t = Some run →
  run (run_unfurl_domains t (master_snapshot dom all_domains)) = Some lines →
  let fs' := web_discovery t (resolve_domains t dom all_domains fs) in
  (httpx t = None ∨ live_hosts lines = [] →
     live_assets fs' = Some (live_hosts lines)
     ∧ web_intelligence_csv fs' = web_intelligence_csv fs)
  ∧ (∀ probe, httpx t = Some probe → live_hosts lines ≠ [] →
       live_assets fs' = None
       ∧ web_intelligence_csv fs'
         = match probe (live_hosts lines) with
           | Some rows => Some rows
           | None => web_intelligence_csv fs
           end).
Proof.
  intros Hd Hrun.
  assert (Hres : resolve_domains t dom all_domains fs
    = {| master_file := Some (run_unfurl_domains t (master_snapshot dom all_domains));
         resolved_json := Some lines;
         live_assets := Some (live_hosts lines);
         web_intelligence_csv := web_intelligence_csv fs;
         source_files := source_files fs |}).
  { unfold resolve_domains. rewrite Hd. fold (master_snapshot dom all_domains).
    by rewrite Hrun. }
  rewrite Hres. clear Hres. unfold web_discovery. cbn [live_assets].
  rewrite live_hosts_read. split.
  - intros [Hh|Hl].
    + destruct (live_hosts lines); simpl; [done|]. by rewrite Hh.
    + by rewrite Hl.
  - intros probe Hh Hne. destruct (live_hosts lines) as [|h hs]; [done|].
    simpl. by rewrite Hh.
Qed.

Lemma live_assets_after_web_discovery_witness :
  let lines := [Parsed (dns_line_of "x.example.com" ["10.0.0.1"])] in
  live_assets (web_discovery (dnsx_without_httpx lines)
                 (resolve_domains (dnsx_without_httpx lines) "example.com"
                    ["x.example.com"] no_files))
  = Some ["x.example.com"].
Proof.
  intros lines.
  destruct (live_assets_after_web_discovery (dnsx_without_httpx lines) (λ _, Some lines)
              lines "example.com" ["x.example.com"] no_files eq_refl eq_refl) as [H _].
  destruct (H (or_introl eq_refl)) as [Hl _]. exact Hl.
Defined.

(** X14. The report takes the addresses of a master line from the record whose
    [host] field is the string equal to its join key: the keys of [dns_data]
    are the hosts as dnsx spells them, not normalized, so a line no record
    names exactly that way gets no address. *)
Theorem report_ips_exact_host (py : pylib) (lines : list json_line)
    (web_data : gmap string (list web_entry)) (sources_map : gmap string (list string))
    (h : string) :
  (∀ d, Parsed d ∈ lines → dl_host d ≠ Some (HostStr (domain_normalized h))) →
  let r := asset_row py (load_dns lines ∅) web_data sources_map h in
  ips r = [] ∧ status r ≠ Live.
Proof.
  intros Hno r. assert (Hips : ips r = []).
  { subst r. rewrite asset_row_ips. unfold recorded_ips.
    rewrite load_dns_unnamed by done. rewrite lookup_empty. by rewrite set_list_nil. }
  split; [done|]. subst r. rewrite asset_row_status. rewrite Hips. simpl.
  by destruct (is_nil _).
Qed.

Lemma report_ips_exact_host_witness :
  let lines := [Parsed (dns_line_of "X.Example.com" ["10.0.0.1"])] in
  ips (asset_row insertion_order (load_dns lines ∅) ∅ ∅ "X.Example.com") = [].
Proof.
  intros lines.
  refine (proj1 (report_ips_exact_host insertion_order lines ∅ ∅ "X.Example.com" _)).
  intros d Hd. apply list_elem_of_singleton in Hd. injection Hd as ->.
  vm_compute. intros [=].
Defined.

(** ** Hosts of archived URLs *)

Lemma split_prefix c l t :
  contains c l = false →
  split c (l +:+ t)
  = (l +:+ hd EmptyString (split c t)) :: tail (split c t).
Proof.
  intros H. induction l as [|d l IH].
  - change (EmptyString +:+ t) with t.
    pose proof (split_nonempty c t). by destruct (split c t).
  - simpl in H. apply orb_false_iff in H as [Hd Hl]. apply bool_decide_eq_false in Hd.
    change (String d l +:+ t) with (String d (l +:+ t)). simpl.
    rewrite bool_decide_eq_false_2 by done. by rewrite IH.
Qed.

Lemma split_sep_head c r : split c (String c r) = EmptyString :: split c r.
Proof. simpl. by rewrite bool_decide_eq_true_2. Qed.

Lemma append_empty_r s : s +:+ EmptyString = s.
Proof. induction s as [|c s IH]; [done|]. change (String c s +:+ EmptyString) with (String c (s +:+ EmptyString)). by rewrite IH. Qed.

Lemma all_of_app p s t : all_of p (s +:+ t) = all_of p s && all_of p t.
Proof.
  induction s as [|c s IH]; [done|].
  change (String c s +:+ t) with (String c (s +:+ t)). simpl. by rewrite IH, andb_assoc.
Qed.

Lemma contains_dot_not_blank s : contains "."%char s = true → all_of is_space s = false.
Proof.
  induction s as [|c s IH]; simpl; [done|]. intros H.
  apply orb_true_iff in H as [H|H].
  - apply bool_decide_eq_true in H as ->. reflexivity.
  - rewrite IH by done. apply andb_false_r.
Qed.

Lemma wayback_host_fields line h :
  wayback_host line = Some h →
  h ≠ EmptyString ∧ contains "."%char h = true
  ∧ contains "/"%char h = false ∧ contains ":"%char h = false.
Proof.
  unfold wayback_host. destruct (nonempty (strip line)); [|done].
  pose proof (split_fields "/"%char line) as Hf.
  destruct (split "/"%char line) as [|p0 [|p1 [|authority ps]]]; try done.
  apply Forall_cons in Hf as [_ Hf]. apply Forall_cons in Hf as [_ Hf].
  apply Forall_cons in Hf as [Ha _].
  pose proof (split_fields ":"%char authority) as Hc.
  pose proof (join_split ":"%char authority) as Hj.
  destruct (split ":"%char authority) as [|d ds]; simpl; [done|].
  destruct (nonempty d && contains "."%char d) eqn:E; [|done].
  intros [= <-]. apply andb_true_iff in E as [E1 E2].
  split; [by apply nonempty_true|]. split; [done|].
  apply Forall_cons in Hc as [Hd _]. split; [|done].
  destruct (contains "/"%char d) eqn:Hs; [|done]. exfalso.
  assert (Hpre : ∀ x y, contains "/"%char x = true → contains "/"%char (x +:+ y) = true).
  { intros x y. induction x as [|c x IH]; simpl; [done|].
    change (String c x +:+ y) with (String c (x +:+ y)). simpl.
    intros H. apply orb_true_iff in H as [->|H]; [done|]. rewrite IH by done.
    apply orb_true_r. }
  rewrite <- Hj in Ha. destruct ds as [|d' ds].
  - simpl in Ha. congruence.
  - rewrite join_cons_cons in Ha. rewrite Hpre in Ha by done. done.
Qed.

(** X15. Every host [wayback_enumeration] keeps is not empty, holds a dot and
    neither a slash nor a colon, and no two of them have the same key; from a
    line [<scheme>//<host><rest>], where the rest is nothing, a port or a
    path, it keeps [<host>]. *)
Theorem wayback_hosts_extracted (data : string) :
  Forall (λ h, h ≠ EmptyString ∧ contains "."%char h = true
               ∧ contains "/"%char h = false ∧ contains ":"%char h = false)
         (wayback_hosts data)
  ∧ NoDup (line_key <$> wayback_hosts data)
  ∧ (∀ scheme h rest,
       contains "/"%char scheme = false →
       contains "/"%char h = false → contains ":"%char h = false →
       contains "."%char h = true → url_tail rest →
       wayback_host (scheme +:+ "//" +:+ h +:+ rest) = Some h).
Proof.
  split; [|split].
  - unfold wayback_hosts. rewrite unique_lines_unique_from.
    eapply Forall_forall. intros h Hh.
    apply (sublist_subseteq _ _ (unique_from_sublist _ _)) in Hh.
    apply list_elem_of_omap in Hh as (line & _ & Hh). by eapply wayback_host_fields.
  - unfold wayback_hosts. rewrite unique_lines_unique_from. apply unique_from_NoDup.
  - intros scheme h rest Hs Hh1 Hh2 Hdot Hrest. unfold wayback_host.
    assert (Hne : nonempty (strip (scheme +:+ "//" +:+ h +:+ rest)) = true).
    { apply nonempty_true. intros E. apply strip_empty in E.
      rewrite !all_of_app in E. rewrite (contains_dot_not_blank h Hdot) in E.
      by rewrite !andb_false_r, ?andb_false_l in E. }
    rewrite Hne. rewrite (split_prefix "/"%char scheme) by done.
    change ("//" +:+ h +:+ rest) with (String "/" (String "/" (h +:+ rest))).
    rewrite !split_sep_head. simpl hd. simpl tail.
    rewrite (split_prefix "/"%char h) by done. cbv iota beta.
    assert (Hd : hd EmptyString (split ":"%char (h +:+ hd EmptyString (split "/"%char rest)))
                 = h).
    { rewrite (split_prefix ":"%char h) by done. simpl hd.
      destruct rest as [|c rest]; [simpl; by rewrite append_empty_r|].
      simpl in Hrest. destruct Hrest as [-> | ->].
      - pose proof (split_nonempty "/"%char rest).
        simpl. destruct (split "/"%char rest) as [|f fs]; [done|]. simpl.
        by rewrite append_empty_r.
      - simpl. by rewrite append_empty_r. }
    rewrite Hd, Hdot. by destruct h.
Qed.

Lemma wayback_hosts_extracted_witness :
  wayback_host ("http:" +:+ "//" +:+ "a.example.com" +:+ ":8080/index.html")
  = Some "a.example.com".
Proof.
  apply (proj2 (proj2 (wayback_hosts_extracted EmptyString))); try reflexivity.
  simpl. by left.
Defined.

(** ** Domains in free text *)

Lemma iterates_consumed P r :
  (∀ s s', matches r s s' → ∃ mt, s = mt ++ s' ∧ Forall (λ c, P c = true) mt) →
  ∀ n s s', iterates r n s s' → ∃ mt, s = mt ++ s' ∧ Forall (λ c, P c = true) mt.
Proof.
  intros Hr. induction n as [|n IH]; intros s s' H;
    inversion H as [|? ? ? s1 ? Hm Hit]; subst.
  - by exists [].
  - apply Hr in Hm as (m1 & -> & H1). apply IH in Hit as (m2 & -> & H2).
    exists (m1 ++ m2). split; [by rewrite <- app_assoc|]. by apply Forall_app.
Qed.

Lemma matches_consumed P r :
  re_chars P r →
  ∀ s s', matches r s s' → ∃ mt, s = mt ++ s' ∧ Forall (λ c, P c = true) mt.
Proof.
  induction r as [p| |r1 IH1 r2 IH2|r IH lo hi]; simpl; intros Hr s s' H.
  - apply matches_chr_inv in H as (c & -> & Hc). exists [c]. split; [done|].
    repeat constructor. by apply Hr.
  - inversion H; subst. by exists [].
  - destruct Hr as [Hr1 Hr2]. inversion H as [| |? ? ? s1 ? H1 H2|]; subst.
    apply (IH1 Hr1) in H1 as (m1 & -> & Hm1). apply (IH2 Hr2) in H2 as (m2 & -> & Hm2).
    exists (m1 ++ m2). split; [by rewrite <- app_assoc|]. by apply Forall_app.
  - inversion H as [| | |? ? ? n ? ? _ _ Hit]; subst.
    by eapply iterates_consumed; [apply IH|].
Qed.

Lemma finditer_chars P r s mt :
  re_chars P r → mt ∈ finditer r s →
  ∃ l, mt = String.string_of_list_ascii l ∧ Forall (λ c, P c = true) l.
Proof.
  intros Hr Hmt. unfold finditer in Hmt. apply list_elem_of_fmap in Hmt as (l & -> & Hl).
  exists l. split; [done|].
  apply finditer_from_elem in Hl as (s' & rest & Hm & ->).
  apply match_at_sound, (matches_consumed P r Hr) in Hm as (m' & -> & Hall).
  by rewrite length_app, Nat.add_sub, take_app_length.
Qed.

Ltac by_character c := destruct c as [[] [] [] [] [] [] [] []]; vm_compute; intros; done.

Lemma domain_pattern_chars : re_chars host_char domain_pattern.
Proof. simpl. repeat split; intros c; by_character c. Qed.

Lemma host_char_lower c : host_char c = true → domain_char (lower_char c) = true.
Proof. by_character c. Qed.

Lemma domain_char_fixed c : domain_char c = true → lower_char c = c ∧ is_space c = false.
Proof. destruct c as [[] [] [] [] [] [] [] []]; vm_compute; intros; done. Qed.

Lemma all_of_lower_host l :
  Forall (λ c, host_char c = true) l →
  all_of domain_char (lower (String.string_of_list_ascii l)) = true.
Proof.
  induction 1 as [|c l Hc H IH]; simpl; [done|]. by rewrite host_char_lower, IH.
Qed.

Lemma domain_chars_lower s : all_of domain_char s = true → lower s = s.
Proof.
  induction s as [|c s IH]; simpl; [done|]. intros H.
  apply andb_true_iff in H as [Hc Hs]. rewrite IH by done.
  by rewrite (proj1 (domain_char_fixed c Hc)).
Qed.

Lemma domain_chars_lstrip s : all_of domain_char s = true → lstrip_of is_space s = s.
Proof.
  destruct s as [|c s]; simpl; [done|]. intros H. apply andb_true_iff in H as [Hc _].
  by rewrite (proj2 (domain_char_fixed c Hc)).
Qed.

Lemma domain_chars_rstrip s : all_of domain_char s = true → rstrip_of is_space s = s.
Proof.
  induction s as [|c s IH]; simpl; [done|]. intros H.
  apply andb_true_iff in H as [Hc Hs]. rewrite IH by done.
  destruct s; [|done]. by rewrite (proj2 (domain_char_fixed c Hc)).
Qed.

Lemma domain_chars_strip s : all_of domain_char s = true → strip s = s.
Proof. intros H. unfold strip. by rewrite domain_chars_lstrip, domain_chars_rstrip. Qed.

Lemma domain_chars_line_key s : all_of domain_char s = true → line_key s = s.
Proof. intros H. unfold line_key. by rewrite domain_chars_lower, domain_chars_strip. Qed.

(** X16. Every domain [extract_domains_from_text] returns is made of lower-case
    letters, digits, hyphens and dots only, holds a dot and is not empty; no
    domain is returned twice; and with a non-empty filter every domain
    returned contains the lowercased filter. *)
Theorem extract_domains_from_text_domains (text : string) (domain_filter : option string) :
  Forall (λ d, d ≠ EmptyString ∧ all_of domain_char d = true
               ∧ contains "."%char d = true)
         (extract_domains_from_text text domain_filter)
  ∧ NoDup (extract_domains_from_text text domain_filter)
  ∧ (∀ f, domain_filter = Some f → f ≠ EmptyString →
       Forall (λ d, in_str (lower f) d = true)
              (extract_domains_from_text text domain_filter)).
Proof.
  assert (Hfound : ∀ x, x ∈ finditer domain_pattern text →
            all_of domain_char (lower x) = true ∧ strip (lower x) = lower x).
  { intros x Hx. apply (finditer_chars host_char) in Hx as (l & -> & Hl);
      [|apply domain_pattern_chars].
    pose proof (all_of_lower_host l Hl) as H. split; [done|by apply domain_chars_strip]. }
  assert (Hsel : ∀ d, d ∈ extract_domains_from_text text domain_filter →
            ∃ x, x ∈ finditer domain_pattern text ∧ d = lower x
                 ∧ d ≠ EmptyString ∧ contains "."%char d = true
                 ∧ (∀ f, domain_filter = Some f → f ≠ EmptyString →
                      in_str (lower f) d = true)).
  { intros d Hd. unfold extract_domains_from_text in Hd.
    rewrite unique_lines_unique_from in Hd.
    apply (sublist_subseteq _ _ (unique_from_sublist _ _)) in Hd.
    apply list_elem_of_filter in Hd as [Hp Hd].
    apply list_elem_of_fmap in Hd as (x & -> & Hx).
    repeat (apply andb_prop_elim in Hp as [Hp ?]).
    assert (Hx' : x ∈ finditer domain_pattern text
                  ∧ (∀ f, domain_filter = Some f → f ≠ EmptyString →
                       in_str (lower f) (lower x) = true)).
    { destruct domain_filter as [f|]; [|by split].
      destruct (nonempty f) eqn:Ef.
      - apply list_elem_of_filter in Hx as [Hin Hx]. split; [done|].
        intros f' [= <-] _. by apply Is_true_true.
      - split; [done|]. intros f' [= <-] Hne. by destruct f. }
    destruct Hx' as [Hx' Hf]. destruct (Hfound x Hx') as [_ Hs].
    exists x. rewrite Hs in *. split; [done|]. split; [done|].
    split; [apply nonempty_true; by apply Is_true_true|].
    split; [by apply Is_true_true|done]. }
  split; [|split].
  - apply Forall_forall. intros d Hd. apply Hsel in Hd as (x & Hx & -> & Hne & Hdot & _).
    split; [done|]. split; [|done]. by apply Hfound.
  - assert (Hkeys : line_key <$> extract_domains_from_text text domain_filter
                    = extract_domains_from_text text domain_filter).
    { rewrite <- (list_fmap_id (extract_domains_from_text text domain_filter)) at 2.
      apply list_fmap_ext. intros i d Hd. apply list_elem_of_lookup_2 in Hd.
      apply Hsel in Hd as (x & Hx & -> & _). apply domain_chars_line_key. by apply Hfound. }
    rewrite <- Hkeys. unfold extract_domains_from_text. rewrite unique_lines_unique_from.
    apply unique_from_NoDup.
  - intros f Hf Hne. apply Forall_forall. intros d Hd.
    apply Hsel in Hd as (x & _ & _ & _ & _ & Hin). by apply Hin.
Qed.

Lemma extract_domains_from_text_domains_witness :
  Forall (λ d, in_str (lower "Example") d = true)
         (extract_domains_from_text "see WWW.Example.com, mail.example.org and foo.net"
            (Some "Example")).
Proof.
  apply (proj2 (proj2 (extract_domains_from_text_domains _ (Some "Example"))) "Example");
    [reflexivity|done].
Defined.

(** ** The counts of the summary *)




(** ** The site list *)

Lemma contains_lstrip_of c p s :
  contains c s = false → contains c (lstrip_of p s) = false.
Proof.
  induction s as [|d s IH]; simpl; [done|]. intros H.
  destruct (p d); [|done]. apply orb_false_iff in H as [_ H]. by apply IH.
Qed.

Lemma contains_rstrip_of c p s :
  contains c s = false → contains c (rstrip_of p s) = false.
Proof.
  induction s as [|d s IH]; simpl; [done|]. intros H.
  apply orb_false_iff in H as [Hd Hs]. specialize (IH Hs).
  destruct (rstrip_of p s) eqn:E.
  - destruct (p d); simpl; [done|]. by rewrite Hd.
  - simpl in *. by rewrite Hd, IH.
Qed.

Lemma contains_strip c s : contains c s = false → contains c (strip s) = false.
Proof. intros H. unfold strip. by apply contains_rstrip_of, contains_lstrip_of. Qed.

Lemma site_of_line_url line u :
  site_of_line line = Some u →
  u ≠ EmptyString ∧ startswith "http" u = true ∧ strip u = u
  ∧ contains ","%char u = false ∧ in_str "url" (lower line) = false.
Proof.
  unfold site_of_line.
  destruct (nonempty (strip line) && negb (in_str "url" (lower line))) eqn:E; [|done].
  apply andb_true_iff in E as [_ E]. apply negb_true_iff in E.
  pose proof (split_fields ","%char line) as Hf.
  destruct (split ","%char line) as [|f0 [|f1 [|f2 [|f3 [|f4 [|f5 [|f6 [|f7 [|field fs]]]]]]]]];
    try done.
  do 8 (apply Forall_cons in Hf as [_ Hf]). apply Forall_cons in Hf as [Hfield _].
  destruct (nonempty (strip field) && startswith "http" (strip field)) eqn:Eu; [|done].
  intros [= <-]. apply andb_true_iff in Eu as [Hne Hhttp].
  split; [by apply nonempty_true|]. split; [done|]. split; [apply strip_idemp|].
  split; [by apply contains_strip|done].
Qed.

(** X18. Every URL of the site list starts with [http], is stripped and holds no
    comma; no two have the same key; and a line of the CSV file is used only
    if the text [url] occurs nowhere in it, in any case: the rule that skips
    the header line also skips such rows. *)
Theorem site_list_urls (csv_lines : list string) :
  Forall (λ u, u ≠ EmptyString ∧ startswith "http" u = true ∧ strip u = u
               ∧ contains ","%char u = false)
         (site_list csv_lines)
  ∧ NoDup (line_key <$> site_list csv_lines)
  ∧ (∀ u, u ∈ site_list csv_lines →
          ∃ line, line ∈ csv_lines ∧ site_of_line line = Some u
                  ∧ in_str "url" (lower line) = false).
Proof.
  assert (Hsrc : ∀ u, u ∈ site_list csv_lines →
            ∃ line, line ∈ csv_lines ∧ site_of_line line = Some u).
  { intros u Hu. unfold site_list in Hu. rewrite unique_lines_unique_from in Hu.
    apply (sublist_subseteq _ _ (unique_from_sublist _ _)) in Hu.
    by apply list_elem_of_omap in Hu. }
  split; [|split].
  - apply Forall_forall. intros u Hu. apply Hsrc in Hu as (line & _ & Hu).
    apply site_of_line_url in Hu. tauto.
  - unfold site_list. rewrite unique_lines_unique_from. apply unique_from_NoDup.
  - intros u Hu. apply Hsrc in Hu as (line & Hl & Hu). exists line.
    split; [done|]. split; [done|]. apply site_of_line_url in Hu. tauto.
Qed.

Lemma site_list_urls_witness :
  ∃ line, line ∈ ["a,b,c,d,e,f,g,h, https://x.example.com ,j"]
          ∧ site_of_line line = Some "https://x.example.com"
          ∧ in_str "url" (lower line) = false.
Proof.
  apply (proj2 (proj2 (site_list_urls ["a,b,c,d,e,f,g,h, https://x.example.com ,j"]))).
  vm_compute. left.
Defined.
